(** * TrustBridge: the trust score, the ledger and the receipt amount extractor

    A shallow embedding of the core of [trustbridge_app.py]:
    - [calculate_trust_score], [update_trust_score], [save_transaction],
      [get_score_tier] (the scoring engine and the ledger);
    - [extract_amount_from_text] (the receipt parser, with the three regular
      expressions it tries in order);
    - the filter-and-sort part of [transactions_page];
    - [save_user], [verify_user], [check_password_strength], the sign-in and
      sign-up forms of [login_page] and the submission of
      [add_transaction_form].

    Python values are modelled as the interpreter has them: [str] as a list of
    Unicode code points, [int] as [Z], [float] as IEEE 754 binary64
    ([SpecFloat.spec_float] with [prec = 53] and [emax = 1024]), [dict]s used
    as stores as [gmap], [set] as [gset], exceptions as an explicit outcome. *)

From Stdlib Require Import ZArith NArith List String Ascii SpecFloat Lia.
From stdpp Require Import gmap list.

Local Open Scope Z_scope.

(* ===================================================================== *)
(** * Python strings *)
(* ===================================================================== *)

Module PyStr.

(** A [str] is a sequence of code points. *)
Abbreviation codepoint := N (only parsing).
Abbreviation str := (list N) (only parsing).

(** String literals of this file are written in UTF-8; [py] decodes them
    into code points (the literals of the source contain the currency
    signs U+20A6, U+00A3 and U+20AC). *)
Fixpoint py (s : string) : str :=
  match s with
  | EmptyString => []
  | String a0 s1 =>
      let b0 := N_of_ascii a0 in
      if (b0 <? 128)%N then b0 :: py s1
      else
        match s1 with
        | EmptyString => []
        | String a1 s2 =>
            let b1 := (N_of_ascii a1 mod 64)%N in
            if (b0 <? 224)%N then ((b0 mod 32) * 64 + b1)%N :: py s2
            else
              match s2 with
              | EmptyString => []
              | String a2 s3 =>
                  let b2 := (N_of_ascii a2 mod 64)%N in
                  if (b0 <? 240)%N
                  then ((b0 mod 16) * 4096 + b1 * 64 + b2)%N :: py s3
                  else
                    match s3 with
                    | EmptyString => []
                    | String a3 s4 =>
                        let b3 := (N_of_ascii a3 mod 64)%N in
                        ((b0 mod 8) * 262144 + b1 * 4096 + b2 * 64 + b3)%N
                          :: py s4
                    end
              end
        end
  end.

Definition eqb (a b : str) : bool := bool_decide (a = b).

(** [a.startswith-like] test used by [contains]. *)
Fixpoint is_prefix (p s : str) : bool :=
  match p, s with
  | [], _ => true
  | _ :: _, [] => false
  | a :: p', b :: s' => (a =? b)%N && is_prefix p' s'
  end.

(** [needle in haystack] on strings: substring test. *)
Fixpoint contains (needle haystack : str) : bool :=
  is_prefix needle haystack
  || match haystack with
     | [] => false
     | _ :: h' => contains needle h'
     end.

(** [s.split(' ')[0]]: the part of [s] before its first space. *)
Fixpoint split_space_0 (s : str) : str :=
  match s with
  | [] => []
  | c :: s' => if (c =? 32)%N then [] else c :: split_space_0 s'
  end.

(** [s.replace(',', '')]. *)
Definition replace_comma (s : str) : str :=
  List.filter (fun c => negb (c =? 44)%N) s.

(** ** The Unicode tables [re] and [float] consult

    [\d] matches the code points of category Nd and [float] reads each of
    them as its decimal value; the category is made of runs of ten
    consecutive code points, the digits 0 to 9 of a script. The table lists
    the first code point of each run (Unicode 14, the database of
    CPython 3.11). *)
Definition decimal_digit_runs : list N :=
  [ 0x30; 0x660; 0x6f0; 0x7c0; 0x966; 0x9e6; 0xa66; 0xae6; 0xb66; 0xbe6;
    0xc66; 0xce6; 0xd66; 0xde6; 0xe50; 0xed0; 0xf20; 0x1040; 0x1090;
    0x17e0; 0x1810; 0x1946; 0x19d0; 0x1a80; 0x1a90; 0x1b50; 0x1bb0;
    0x1c40; 0x1c50; 0xa620; 0xa8d0; 0xa900; 0xa9d0; 0xa9f0; 0xaa50;
    0xabf0; 0xff10; 0x104a0; 0x10d30; 0x11066; 0x110f0; 0x11136; 0x111d0;
    0x112f0; 0x11450; 0x114d0; 0x11650; 0x116c0; 0x11730; 0x118e0;
    0x11950; 0x11c50; 0x11d50; 0x11da0; 0x16a60; 0x16ac0; 0x16b50;
    0x1d7ce; 0x1d7d8; 0x1d7e2; 0x1d7ec; 0x1d7f6; 0x1e140; 0x1e2f0;
    0x1e950; 0x1fbf0 ]%N.

Fixpoint digit_in_runs (runs : list N) (c : N) : option N :=
  match runs with
  | [] => None
  | z :: runs' =>
      if ((z <=? c) && (c <? z + 10))%N then Some (c - z)%N
      else digit_in_runs runs' c
  end.

(** [unicodedata.decimal(c, None)]. *)
Definition decimal_value (c : N) : option N :=
  digit_in_runs decimal_digit_runs c.

(** [\d]. *)
Definition is_digit (c : N) : bool :=
  match decimal_value c with Some _ => true | None => false end.

(** [\s]: the code points for which [str.isspace] holds. *)
Definition is_space (c : N) : bool :=
  (((0x9 <=? c) && (c <=? 0xd)) || ((0x1c <=? c) && (c <=? 0x20))
   || (c =? 0x85) || (c =? 0xa0) || (c =? 0x1680)
   || ((0x2000 <=? c) && (c <=? 0x200a))
   || (c =? 0x2028) || (c =? 0x2029) || (c =? 0x202f) || (c =? 0x205f)
   || (c =? 0x3000))%N.

End PyStr.
Import PyStr.


(* ===================================================================== *)
(** * Python floats *)
(* ===================================================================== *)

Module Float64.

(** A [float] is an IEEE 754 binary64 value. *)
Abbreviation t := spec_float (only parsing).

Definition prec : Z := 53.
Definition emax : Z := 1024.

Definition zero : t := S754_zero false.

(** [a + b], rounded to nearest, ties to even. *)
Definition add (a b : t) : t := SFadd prec emax a b.

(** [a < b], [a > b] and [a <= b]; all three are false on a NaN. *)
Definition ltb (a b : t) : bool := SFltb a b.
Definition gtb (a b : t) : bool := SFltb b a.
Definition leb (a b : t) : bool := SFleb a b.

Definition is_nan (a : t) : bool :=
  match a with S754_nan => true | _ => false end.

(** [math.isfinite]. *)
Definition is_finite (a : t) : bool :=
  match a with S754_zero _ | S754_finite _ _ _ => true | _ => false end.

Definition pow10 (k : nat) : positive := Nat.iter k (Pos.mul 10) 1%positive.

(** The binary64 nearest to [m / 10^k] (ties to even; infinite beyond the
    range): the value [float] gives to a decimal literal whose digits spell
    [m] and which has [k] of them after the point. The quotient of the two
    integers is rounded once, by [SFdiv]. *)
Definition of_decimal (m : N) (k : nat) : t :=
  match m with
  | N0 => S754_zero false
  | Npos p =>
      SFdiv prec emax (S754_finite false p 0) (S754_finite false (pow10 k) 0)
  end.

(** The longest prefix of decimal digits, as digit values, and the rest. *)
Fixpoint span_digits (s : str) : list N * str :=
  match s with
  | [] => ([], [])
  | c :: s' =>
      match decimal_value c with
      | Some d => let '(ds, r) := span_digits s' in (d :: ds, r)
      | None => ([], s)
      end
  end.

(** The number a sequence of digit values spells. *)
Definition number (ds : list N) : N :=
  fold_left (fun acc d => (10 * acc + d)%N) ds 0%N.

(** An unsigned decimal literal: digits, and an optional point followed by
    digits, with a digit on at least one side of the point. *)
Definition unsigned_literal (body : str) : option t :=
  let '(ip, r1) := span_digits body in
  let '(fp, r2) :=
    match r1 with
    | 46%N :: r => span_digits r
    | _ => ([], r1)
    end in
  match r2, ip ++ fp with
  | [], _ :: _ => Some (of_decimal (number (ip ++ fp)) (length fp))
  | _, _ => None
  end.

(** [float(s)] for the strings that reach it in this program: an optional
    sign and an unsigned decimal literal. [None] stands for [ValueError].
    (The argument is a regex group with its commas removed, made of digits
    and points only; exponents, underscores, blanks, [inf] and [nan], which
    [float] also reads, cannot occur in it.) *)
Definition float (s : str) : option t :=
  match s with
  | 45%N :: s' => option_map (SFopp) (unsigned_literal s')
  | 43%N :: s' => unsigned_literal s'
  | _ => unsigned_literal s
  end.

End Float64.

(* ===================================================================== *)
(** * Regular expressions, as [re] matches them *)
(* ===================================================================== *)

Module Re.

(** The constructs the three patterns of the program use. Every quantifier
    of the patterns applies to a character class and is greedy. *)
Inductive regex : Type :=
| Lit (l : str)                 (* a literal string *)
| Class (p : N -> bool)         (* one character of a class *)
| Seq (r1 r2 : regex)           (* r1 r2 *)
| Alt (r1 r2 : regex)           (* r1|r2 *)
| Opt (p : N -> bool)           (* [p]? *)
| Star (p : N -> bool)          (* [p]* *)
| Plus (p : N -> bool)          (* [p]+ *)
| Group (r : regex).            (* (r), the capturing group 1 *)

Section Matcher.
Context {A : Type}.

(** [p]* followed by [k]: the longest run first, then one character less at
    a time. *)
Fixpoint star (p : N -> bool) (s : str) (k : str -> option A) : option A :=
  match s with
  | [] => k []
  | c :: s' =>
      if p c then
        match star p s' k with
        | Some x => Some x
        | None => k s
        end
      else k s
  end.

(** The backtracking matcher: [run r s g k] matches [r] at the head of [s]
    and hands the rest of the text and group 1 to [k]; when [k] fails the
    next way of matching [r] is tried, in the order of [re]. *)
Fixpoint run (r : regex) (s : str) (g : option str)
    (k : str -> option str -> option A) : option A :=
  match r with
  | Lit l => if is_prefix l s then k (drop (length l) s) g else None
  | Class p =>
      match s with
      | c :: s' => if p c then k s' g else None
      | [] => None
      end
  | Seq r1 r2 => run r1 s g (fun s' g' => run r2 s' g' k)
  | Alt r1 r2 =>
      match run r1 s g k with
      | Some x => Some x
      | None => run r2 s g k
      end
  | Opt p =>
      match s with
      | c :: s' =>
          if p c then
            match k s' g with
            | Some x => Some x
            | None => k s g
            end
          else k s g
      | [] => k s g
      end
  | Star p => star p s (fun s' => k s' g)
  | Plus p =>
      match s with
      | c :: s' => if p c then star p s' (fun s'' => k s'' g) else None
      | [] => None
      end
  | Group r1 =>
      run r1 s g
        (fun s' _ => k s' (Some (take (length s - length s')%nat s)))
  end.

End Matcher.

(** A match object, as far as the program looks at it: [m.group(1)], which
    is [None] when the group took no part in the match. *)
Abbreviation match_object := (option str) (only parsing).

(** A match of [r] starting at the head of [s]. *)
Definition match_here (r : regex) (s : str) : option match_object :=
  run r s None (fun _ g => Some g).

(** [re.search(r, s)]: the match at the leftmost position that has one. *)
Fixpoint search (r : regex) (s : str) : option match_object :=
  match match_here r s with
  | Some m => Some m
  | None =>
      match s with
      | [] => None
      | _ :: s' => search r s'
      end
  end.

End Re.

(* ===================================================================== *)
(** * The application *)
(* ===================================================================== *)

Module TrustBridge.
Import Re.

(** ** Data *)

(** A [datetime] value. *)
Record datetime : Type := mk_datetime {
  year : N; month : N; day : N;
  hour : N; minute : N; second : N; microsecond : N
}.

(** [t['date']] is a string or a [datetime] (the form stores the latter). *)
Inductive date_value : Type :=
| DateStr (s : str)
| DateTime (d : datetime).

(** A transaction: the dictionary [add_transaction_form] builds. *)
Record transaction : Type := mk_transaction {
  date : date_value;
  type : str;
  amount : Float64.t;
  category : str;
  description : str;
  verified : bool;
  extracted_text : option str
}.

(** A user: the dictionary [save_user] builds. *)
Record user : Type := mk_user {
  name : str;
  email : str;
  password : str;
  plan : str;
  created_at : str;
  trust_score : Z;
  consistency_days : Z;
  profile_image : option str
}.

(** The two stores kept in [st.session_state]. *)
Record session_state : Type := mk_session_state {
  users_db : gmap (list N) user;
  transactions_db : gmap (list N) (list transaction)
}.

(** ** Exceptions and the state monad of the store functions *)

(** [KeyError] and [AttributeError] of the interpreter, and the
    [UnidentifiedImageError] of [PIL.Image.open]. *)
Inductive exn : Type :=
| KeyError (key : str)
| AttributeError
| UnidentifiedImageError.

Inductive outcome (A : Type) : Type :=
| Returned (a : A)
| Raised (e : exn).
Arguments Returned {A} a.
Arguments Raised {A} e.

(** A store function: it runs on a state and leaves a state, also when it
    raises. *)
Definition store (A : Type) : Type := session_state -> outcome A * session_state.

Definition ret {A} (a : A) : store A := fun st => (Returned a, st).
Definition raise {A} (e : exn) : store A := fun st => (Raised e, st).
Definition bind {A B} (m : store A) (f : A -> store B) : store B :=
  fun st =>
    match m st with
    | (Returned a, st') => f a st'
    | (Raised e, st') => (Raised e, st')
    end.
Definition gets {A} (f : session_state -> A) : store A :=
  fun st => (Returned (f st), st).
Definition modify (f : session_state -> session_state) : store unit :=
  fun st => (Returned tt, f st).

Notation "'let*' x ':=' m 'in' k" := (bind m (fun x => k))
  (at level 10, x name, m at level 200, k at level 200).

(** ** The ledger *)

Definition get_user_data (st : session_state) (email : str) : option user :=
  users_db st !! email.

(** [transactions_db.get(email, [])]. *)
Definition get_user_transactions (st : session_state) (email : str)
  : list transaction :=
  default [] (transactions_db st !! email).

(** ** The score *)

Definition digit_char (n : N) : N := (48 + n mod 10)%N.

(** [%m] and [%d]: two digits. *)
Definition pad2 (n : N) : str := [digit_char (n / 10); digit_char n].

(** [%Y]: the year in decimal (one to four digits; a [datetime] has a year
    between 1 and 9999, and the C library does not pad it). *)
Definition year_digits (y : N) : str :=
  (if (y <? 10)%N then []
   else (if (y <? 100)%N then []
         else (if (y <? 1000)%N then [] else [digit_char (y / 1000)])
              ++ [digit_char (y / 100)])
        ++ [digit_char (y / 10)])
  ++ [digit_char y].

(** [d.strftime('%Y-%m-%d')]. *)
Definition strftime_Ymd (d : datetime) : str :=
  year_digits (year d) ++ [45%N] ++ pad2 (month d) ++ [45%N] ++ pad2 (day d).

(** [date_str] of the loop of [calculate_trust_score]: the calendar date of
    a transaction. *)
Definition date_str (t : transaction) : str :=
  match date t with
  | DateStr s => split_space_0 s
  | DateTime d => strftime_Ymd d
  end.

(** [sum(t['amount'] for t in ts)]: left to right, from 0. *)
Definition sum_amounts (ts : list transaction) : Float64.t :=
  fold_left (fun acc t => Float64.add acc (amount t)) ts Float64.zero.

Definition is_type (ty : str) (t : transaction) : bool := PyStr.eqb (type t) ty.

(** The body of [calculate_trust_score], on the list it reads. *)
Definition score_of (transactions : list transaction) : Z :=
  let base_score := 300 in
  let score := base_score in
  match transactions with
  | [] => score
  | _ :: _ =>
      let verified_count := Z.of_nat (length (List.filter verified transactions)) in
      let score := score + verified_count * 5 in
      let score := score + Z.of_nat (length transactions) * 1 in
      let transaction_dates : gset (list N) :=
        fold_left (fun dates t => dates ∪ {[ date_str t ]}) transactions ∅ in
      let consistency_days := Z.of_nat (size transaction_dates) in
      let score := score + consistency_days * 2 in
      let score := if 30 <=? consistency_days then score + 20 else score in
      let total_income :=
        sum_amounts (List.filter (is_type (py "Income")) transactions) in
      let total_expense :=
        sum_amounts (List.filter (is_type (py "Expense")) transactions) in
      let score :=
        if Float64.gtb total_income total_expense then score + 15 else score in
      let recent_income := List.filter (is_type (py "Income")) transactions in
      let score :=
        match recent_income with
        | [] => score
        | _ :: _ => score + 10
        end in
      let score := Z.min score 850 in
      score
  end.

Definition calculate_trust_score (st : session_state) (email : str) : Z :=
  let transactions := get_user_transactions st email in
  score_of transactions.

Definition set_trust_score (new_score : Z) (u : user) : user :=
  mk_user (name u) (email u) (password u) (plan u) (created_at u)
          new_score (consistency_days u) (profile_image u).

(** [users_db[email]['trust_score'] = new_score]; the subscript raises
    [KeyError] for an unknown user. *)
Definition update_trust_score (email : str) : store unit :=
  let* new_score := gets (fun st => calculate_trust_score st email) in
  let* u := (fun st =>
               match users_db st !! email with
               | Some u => ret u st
               | None => raise (KeyError email) st
               end) in
  modify (fun st =>
            mk_session_state
              (<[email := set_trust_score new_score u]> (users_db st))
              (transactions_db st)).

(** The list is created when missing, the transaction goes to its head, and
    the score is recomputed. *)
Definition save_transaction (email : str) (transaction_data : transaction)
  : store unit :=
  let* _ :=
    modify (fun st =>
              match transactions_db st !! email with
              | Some _ => st
              | None =>
                  mk_session_state (users_db st)
                                   (<[email := []]> (transactions_db st))
              end) in
  let* _ :=
    modify (fun st =>
              mk_session_state
                (users_db st)
                (<[email := transaction_data :: get_user_transactions st email]>
                   (transactions_db st))) in
  update_trust_score email.

(** The tier, its colour and its level. *)
Definition get_score_tier (score : Z) : str * str * str :=
  if 750 <=? score then (py "Excellent", py "#4CAF50", py "LEVEL 5")
  else if 650 <=? score then (py "Good", py "#2196F3", py "LEVEL 4")
  else if 500 <=? score then (py "Building", py "#FF9800", py "LEVEL 3")
  else if 400 <=? score then (py "Fair", py "#FFC107", py "LEVEL 2")
  else (py "Starting", py "#9E9E9E", py "LEVEL 1").

(** ** The amount extractor *)

Definition one_of (cs : str) (c : N) : bool := bool_decide (c ∈ cs).

(** [[\s:]], [[₦$£€]], [[,.]] and [\.]. *)
Definition space_or_colon (c : N) : bool := is_space c || (c =? 58)%N.
Definition currency_sign : N -> bool := one_of (py "₦$£€").
Definition comma_or_point : N -> bool := one_of (py ",.").
Definition point (c : N) : bool := (c =? 46)%N.

(** [(\d+[,.]?\d*\.?\d+)]. *)
Definition amount_group : regex :=
  Group (Seq (Plus is_digit)
        (Seq (Opt comma_or_point)
        (Seq (Star is_digit)
        (Seq (Opt point)
             (Plus is_digit))))).

(** [(?:TOTAL|Total|total|AMOUNT|Amount|amount)]. *)
Definition label : regex :=
  Alt (Lit (py "TOTAL")) (Alt (Lit (py "Total")) (Alt (Lit (py "total"))
 (Alt (Lit (py "AMOUNT")) (Alt (Lit (py "Amount")) (Lit (py "amount")))))).

(** [(?:NGN|USD|GBP|EUR)]. *)
Definition currency_code : regex :=
  Alt (Lit (py "NGN")) (Alt (Lit (py "USD")) (Alt (Lit (py "GBP"))
      (Lit (py "EUR")))).

Definition labelled_total : regex :=
  Seq label (Seq (Star space_or_colon) (Seq (Opt currency_sign)
 (Seq (Star is_space) amount_group))).

Definition sign_prefixed : regex :=
  Seq (Class currency_sign) (Seq (Star is_space) amount_group).

Definition code_suffixed : regex :=
  Seq amount_group (Seq (Star is_space) currency_code).

Definition patterns : list regex :=
  [labelled_total; sign_prefixed; code_suffixed].

(** The loop over the patterns. A pattern that does not match, or whose
    group [float] rejects, leaves the turn to the next one; [None.replace]
    would raise [AttributeError], outside the [try]. *)
Fixpoint extract_with (ps : list regex) (text : str)
  : outcome (option Float64.t) :=
  match ps with
  | [] => Returned None
  | pattern :: ps' =>
      match search pattern text with
      | Some m =>
          match m with
          | None => Raised AttributeError
          | Some g =>
              let amount_str := replace_comma g in
              match Float64.float amount_str with
              | Some a => Returned (Some a)
              | None => extract_with ps' text
              end
          end
      | None => extract_with ps' text
      end
  end.

Definition extract_amount_from_text (text : str) : outcome (option Float64.t) :=
  extract_with patterns text.

(** ** The transaction list of [transactions_page] *)

(** [sorted(l, key=lambda x: x['amount'], reverse=r)] on amounts none of
    which is a NaN. There [<] is a strict weak order and the sort of Python
    is stable, also with [reverse] (it sorts the reversed list and reverses
    the result), so that its result is the one stable arrangement;
    insertion from the right, before the first element that is not smaller,
    computes it. On a list with a NaN amount, where every comparison with
    the NaN is false, the list Python returns depends on the comparisons
    its merge sort happens to make and is neither ordered nor stable: this
    definition does not describe it, and the statements on [sorted] that
    depend on the order are made for ledgers without NaN amounts. *)
Fixpoint insert_by_amount (x : transaction) (l : list transaction)
  : list transaction :=
  match l with
  | [] => [x]
  | y :: l' =>
      if Float64.ltb (amount y) (amount x) then y :: insert_by_amount x l'
      else x :: l
  end.

Definition sort_by_amount (l : list transaction) : list transaction :=
  fold_right insert_by_amount [] l.

Definition sorted (l : list transaction) (reverse : bool) : list transaction :=
  if reverse then rev (sort_by_amount (rev l)) else sort_by_amount l.

(** The options of the three select boxes. *)
Definition type_options : list str := [py "All"; py "Income"; py "Expense"].
Definition status_options : list str :=
  [py "All"; py "Verified Only"; py "Unverified Only"].
Definition sort_options : list str :=
  [py "Date (Newest)"; py "Date (Oldest)";
   py "Amount (High-Low)"; py "Amount (Low-High)"].

(** The list [transactions_page] displays for a choice of the three boxes. *)
Definition transactions_page (transactions : list transaction)
    (filter_type filter_verified sort_by : str) : list transaction :=
  match transactions with
  | [] => []
  | _ :: _ =>
      let filtered := transactions in
      let filtered :=
        if negb (PyStr.eqb filter_type (py "All"))
        then List.filter (fun t => PyStr.eqb (type t) filter_type) filtered
        else filtered in
      let filtered :=
        if PyStr.eqb filter_verified (py "Verified Only")
        then List.filter verified filtered
        else if PyStr.eqb filter_verified (py "Unverified Only")
        then List.filter (fun t => negb (verified t)) filtered
        else filtered in
      let filtered :=
        if contains (py "Amount") sort_by
        then sorted filtered (contains (py "High") sort_by)
        else filtered in
      filtered
  end.

End TrustBridge.

(* ===================================================================== *)
(** * Quantities the statements speak of, and sample data *)
(* ===================================================================== *)

Module Spec.
Import Re TrustBridge.

(** The number of distinct calendar dates of a ledger. *)
Definition active_days (l : list transaction) : nat :=
  size (list_to_set (map date_str l) : gset (list N)).

(** The test of the income rule: total income > total expense. *)
Definition income_exceeds_expense (l : list transaction) : bool :=
  Float64.gtb (sum_amounts (List.filter (is_type (py "Income")) l))
              (sum_amounts (List.filter (is_type (py "Expense")) l)).

Definition has_income (l : list transaction) : bool :=
  match List.filter (is_type (py "Income")) l with
  | [] => false
  | _ :: _ => true
  end.

(** The cached score of a user, when the user exists. *)
Definition cached_score (st : session_state) (email : str) : option Z :=
  trust_score <$> users_db st !! email.

(** What it means for a regular expression to match a word: [matches r w g
    g'] when [r] matches exactly [w], group 1 being [g] before and [g']
    after. (The order of the attempts is the matter of [run].) *)
Inductive matches : regex -> str -> option str -> option str -> Prop :=
| M_Lit l g : matches (Lit l) l g g
| M_Class (p : N -> bool) c g : p c = true -> matches (Class p) [c] g g
| M_Seq r1 r2 w1 w2 g g1 g2 :
    matches r1 w1 g g1 -> matches r2 w2 g1 g2 ->
    matches (Seq r1 r2) (w1 ++ w2) g g2
| M_Alt_l r1 r2 w g g' : matches r1 w g g' -> matches (Alt r1 r2) w g g'
| M_Alt_r r1 r2 w g g' : matches r2 w g g' -> matches (Alt r1 r2) w g g'
| M_Opt_none p g : matches (Opt p) [] g g
| M_Opt_some (p : N -> bool) c g : p c = true -> matches (Opt p) [c] g g
| M_Star (p : N -> bool) w g :
    Forall (fun c => p c = true) w -> matches (Star p) w g g
| M_Plus (p : N -> bool) c w g :
    Forall (fun c => p c = true) (c :: w) -> matches (Plus p) (c :: w) g g
| M_Group r w g g' : matches r w g g' -> matches (Group r) w g (Some w).

(** Every character a regular expression can consume satisfies [P]. *)
Fixpoint over (P : N -> Prop) (r : regex) : Prop :=
  match r with
  | Lit l => Forall P l
  | Class p | Opt p | Star p | Plus p => forall c, p c = true -> P c
  | Seq r1 r2 | Alt r1 r2 => over P r1 /\ over P r2
  | Group r1 => over P r1
  end.

(** Every group of a regular expression is over [P]. *)
Fixpoint groups_over (P : N -> Prop) (r : regex) : Prop :=
  match r with
  | Seq r1 r2 | Alt r1 r2 => groups_over P r1 /\ groups_over P r2
  | Group r1 => over P r1
  | _ => True
  end.

(** Every match of the regular expression goes through a group. *)
Fixpoint sets_group (r : regex) : bool :=
  match r with
  | Seq r1 r2 => sets_group r1 || sets_group r2
  | Alt r1 r2 => sets_group r1 && sets_group r2
  | Group _ => true
  | _ => false
  end.

(** The characters of an amount: a decimal digit, a comma or a point. *)
Definition amount_char (c : N) : Prop :=
  is_digit c = true \/ c = 44%N \/ c = 46%N.

(** The tails [\d*\.?\d+] and [[,.]?\d*\.?\d+] of the amount group. *)
Definition tail2 : regex := Seq (Star is_digit) (Seq (Opt point) (Plus is_digit)).
Definition tail1 : regex := Seq (Opt comma_or_point) tail2.

(** Group 1 is set, to a word over [P]. *)
Definition held (P : N -> Prop) (g : option str) : Prop :=
  exists w, g = Some w /\ Forall P w.

(** A decimal amount, [units / 10^scale]: 1250.00 is 125000 with scale 2. *)
Record decimal : Type := mk_decimal { units : N; scale : nat }.

(** The digits of a number, most significant first; [fuel] bounds their
    count. *)
Fixpoint digits_fuel (fuel : nat) (n : N) (acc : list N) : list N :=
  match fuel with
  | O => acc
  | S fuel' =>
      if (n <? 10)%N then n :: acc
      else digits_fuel fuel' (n / 10)%N ((n mod 10)%N :: acc)
  end.

Definition digits_of (n : N) : list N :=
  digits_fuel (N.to_nat (N.size n)) n [].

(** The characters of a sequence of digit values. *)
Definition digit_chars (ds : list N) : str := map (fun d => (48 + d)%N) ds.

(** The literal with integer digits [ip] and fraction digits [fp]; no point
    when there is no fraction. *)
Definition render_digits (ip fp : list N) : str :=
  digit_chars ip
  ++ match fp with
     | [] => []
     | _ :: _ => 46%N :: digit_chars fp
     end.

(** The fixed-point rendering of a decimal amount, as ['%.2f'] prints one of
    scale 2: the digits of [units], zero-padded to [scale + 1] digits, with
    the point before the last [scale] digits. *)
Definition render (a : decimal) : str :=
  let ds := digits_of (units a) in
  let ds := repeat 0%N (S (scale a) - length ds) ++ ds in
  render_digits (take (length ds - scale a) ds) (drop (length ds - scale a) ds).

(** Thousands separators, on the characters of the integer part in
    reverse: a comma after every third digit that has a digit after it. *)
Fixpoint commas_rev (cs : str) : str :=
  match cs with
  | a :: b :: c :: ((_ :: _) as rest) => a :: b :: c :: 44%N :: commas_rev rest
  | _ => cs
  end.

(** The integer digits in groups of three, as [format(n, ',')] prints
    them. *)
Definition grouped (ip : list N) : str :=
  rev (commas_rev (rev (digit_chars ip))).

(** The fixed-point rendering with thousands separators, as ['{:,.2f}']
    prints an amount of scale 2. *)
Definition render_grouped (a : decimal) : str :=
  let ds := digits_of (units a) in
  let ds := repeat 0%N (S (scale a) - length ds) ++ ds in
  grouped (take (length ds - scale a) ds)
  ++ match drop (length ds - scale a) ds with
     | [] => []
     | (_ :: _) as fp => 46%N :: digit_chars fp
     end.

(** The float nearest to a decimal amount. *)
Definition nearest_float (a : decimal) : Float64.t :=
  Float64.of_decimal (units a) (scale a).

(** The amount 10.00. *)
Definition ten : Float64.t := Float64.of_decimal 1000 2.

(** A value with the sign bit clear: +0, a positive number or +inf. *)
Definition positive_or_zero (a : Float64.t) : Prop :=
  match a with
  | S754_zero false | S754_finite false _ _ | S754_infinity false => True
  | _ => False
  end.

(** [0 <= a], as Python evaluates it: false on a NaN and on a negative
    value. *)
Definition non_negative (a : Float64.t) : bool := Float64.leb Float64.zero a.

End Spec.

Module Samples.
Import Re TrustBridge.

Definition alice : str := py "alice@example.com".

Definition alice_user : user :=
  mk_user (py "Alice") alice (py "5e884898da28") (py "free")
          (py "2024-01-01T09:00:00") 300 0 None.

(** The state [save_user] leaves for a new user. *)
Definition fresh : session_state :=
  mk_session_state {[ alice := alice_user ]} {[ alice := [] ]}.

Definition at_noon (y m d : N) : date_value :=
  DateTime (mk_datetime y m d 12 0 0 0).

(** 100.00, 200.00 and 20.00. *)
Definition f100 : Float64.t := Float64.of_decimal 10000 2.
Definition f200 : Float64.t := Float64.of_decimal 20000 2.
Definition f20 : Float64.t := Float64.of_decimal 2000 2.

Definition salary : transaction :=
  mk_transaction (at_noon 2024 1 5) (py "Income") f100 (py "Salary")
                 (py "") false None.

Definition rent : transaction :=
  mk_transaction (at_noon 2024 1 5) (py "Expense") f200 (py "Rent")
                 (py "") false None.

(** An unverified expense of 10.00 on a day of January 2024. *)
Definition grocery (d : N) : transaction :=
  mk_transaction (at_noon 2024 1 d) (py "Expense") Spec.ten (py "Grocery")
                 (py "") false None.

(** Thirty of them, on the 1st to the 30th. *)
Definition thirty_days : list transaction :=
  map (fun d => grocery (N.of_nat d)) (seq 1 30).

Definition thirty_state : session_state :=
  mk_session_state {[ alice := alice_user ]} {[ alice := thirty_days ]}.

(** Two expenses: 10.00 on the 5th, then 20.00 on the 1st. *)
Definition small_late : transaction :=
  mk_transaction (at_noon 2024 1 5) (py "Expense") Spec.ten (py "Grocery")
                 (py "") false None.
Definition large_early : transaction :=
  mk_transaction (at_noon 2024 1 1) (py "Expense") f20 (py "Transport")
                 (py "") false None.

(** A snack of 50.00 on the day of the salary. *)
Definition f50 : Float64.t := Float64.of_decimal 5000 2.
Definition snack : transaction :=
  mk_transaction (at_noon 2024 1 5) (py "Expense") f50 (py "Grocery")
                 (py "") false None.

(** The state after Alice records her salary, and after the rent on top. *)
Definition after_salary : session_state :=
  snd (save_transaction alice salary fresh).
Definition after_rent : session_state :=
  snd (save_transaction alice rent after_salary).

(** 400 times the digit 9. *)
Definition nines : str := repeat 57%N 400.

End Samples.

(* ===================================================================== *)
(** * Accounts, the sign-in forms and the transaction form *)
(* ===================================================================== *)

Module Pages.
Import Re TrustBridge Spec.

(** ** The password meter *)

Definition in_range (lo hi c : N) : bool := ((lo <=? c) && (c <=? hi))%N.

(** [[A-Z]] and [[a-z]]. *)
Definition is_upper : N -> bool := in_range 65 90.
Definition is_lower : N -> bool := in_range 97 122.

(** The class of special characters: ! @ # $ % ^ & * ( ) , . ? and the
    double quote, then : { } | < >. *)
Definition special_chars : str :=
  [33; 64; 35; 36; 37; 94; 38; 42; 40; 41; 44; 46; 63; 34;
   58; 123; 125; 124; 60; 62]%N.
Definition is_special : N -> bool := one_of special_chars.

(** [sum] of the four flags. *)
Definition class_count (password : str) : Z :=
  let has_upper := existsb is_upper password in
  let has_lower := existsb is_lower password in
  let has_digit := existsb is_digit password in
  let has_special := existsb is_special password in
  Z.b2z has_upper + Z.b2z has_lower + Z.b2z has_digit + Z.b2z has_special.

Definition check_password_strength (password : str) : str * str * Z :=
  let len := Z.of_nat (length password) in
  if len <? 8 then (py "Too short", py "🔴", 0)
  else
    let strength := class_count password in
    if (strength =? 4) && (12 <=? len) then (py "Very Strong", py "🟢", 100)
    else if (3 <=? strength) && (10 <=? len) then (py "Strong", py "🟢", 75)
    else if 2 <=? strength then (py "Moderate", py "🟡", 50)
    else (py "Weak", py "🔴", 25).

(** The value of the meter, the third component. *)
Definition strength_value (password : str) : Z :=
  snd (check_password_strength password).

(** ** Accounts *)

Section Accounts.

(** [hashlib.sha256(password.encode()).hexdigest()], a function of the
    password. *)
Variable sha256_hexdigest : str -> str.

(** [save_user]; [now] is [datetime.now().isoformat()]. *)
Definition save_user (email name password plan now : str) : store bool :=
  let hashed_password := sha256_hexdigest password in
  let* _ :=
    modify (fun st =>
              mk_session_state
                (<[email := mk_user name email hashed_password plan now
                                    300 0 None]> (users_db st))
                (transactions_db st)) in
  let* _ :=
    modify (fun st =>
              mk_session_state (users_db st)
                               (<[email := []]> (transactions_db st))) in
  ret true.

Definition verify_user (st : session_state) (email password : str) : bool :=
  match users_db st !! email with
  | Some u =>
      let hashed_password := sha256_hexdigest password in
      PyStr.eqb (TrustBridge.password u) hashed_password
  | None => false
  end.

(** The part of [st.session_state] around the two stores. *)
Record app_state : Type := mk_app_state {
  session : session_state;
  authenticated : bool;
  current_user : option str;
  page : str
}.

(** The state of a new session. *)
Definition initial : app_state :=
  mk_app_state (mk_session_state ∅ ∅) false None (py "Dashboard").

(** "Sign In" of [login_page]: the message shown and the state left. *)
Definition sign_in (email password : str) (a : app_state) : str * app_state :=
  if verify_user (session a) email password
  then (py "✓ Logged in successfully!",
        mk_app_state (session a) true (Some email) (page a))
  else (py "Invalid email or password", a).

(** "Sign Out" of [sidebar_navigation]. *)
Definition sign_out (a : app_state) : app_state :=
  mk_app_state (session a) false None (page a).

(** The truth value of a string: not empty. *)
Definition nonempty (s : str) : bool :=
  match s with [] => false | _ :: _ => true end.

(** "Create Account" of [login_page]: the message shown and the state
    left. [plan] is the label of the chosen plan. *)
Definition create_account (name email password plan : str) (agree : bool)
    (now : str) (a : app_state) : str * app_state :=
  if negb (forallb nonempty [name; email; password])
  then (py "Please fill in all fields", a)
  else if negb agree
  then (py "Please agree to Terms of Service", a)
  else if bool_decide (is_Some (users_db (session a) !! email))
  then (py "Email already registered", a)
  else if (length password <? 8)%nat
  then (py "Password must be at least 8 characters", a)
  else
    let plan_type :=
      if contains (py "Free") plan then py "free" else py "premium" in
    (py "✓ Account created! Please sign in.",
     mk_app_state (snd (save_user email name password plan_type now (session a)))
                  (authenticated a) (current_user a) (page a)).

(** "Save Changes" of [profile_page]:
    [users_db[current_user]['name'] = name]. *)
Definition save_changes (current_user new_name : str) : store unit :=
  fun st =>
    match users_db st !! current_user with
    | Some u =>
        (Returned tt,
         mk_session_state
           (<[current_user :=
                mk_user new_name (email u) (password u) (plan u)
                        (created_at u) (trust_score u) (consistency_days u)
                        (profile_image u)]> (users_db st))
           (transactions_db st))
    | None => (Raised (KeyError current_user), st)
    end.

(** The operations that write to the two stores. *)
Inductive operation : Type :=
| SaveUser (email name password plan now : str)
| SaveTransaction (email : str) (t : transaction)
| SaveChanges (current_user new_name : str).

(** The state an operation leaves, whether it returns or raises. *)
Definition apply_operation (st : session_state) (o : operation)
  : session_state :=
  match o with
  | SaveUser email name password plan now =>
      snd (save_user email name password plan now st)
  | SaveTransaction email t => snd (save_transaction email t st)
  | SaveChanges current_user new_name =>
      snd (save_changes current_user new_name st)
  end.

Definition run_operations (os : list operation) (st : session_state)
  : session_state :=
  fold_left apply_operation os st.

End Accounts.

(** ** The transaction form *)

(** The text the simulated OCR returns for every upload,
    [sample_texts[0]]. *)
Definition sample_text : str :=
  py "TOTAL: $45.50" ++ [10%N] ++ py "Thank you for your purchase".

(** The truth value of a float: not zero (a NaN is true). *)
Definition float_truth (a : Float64.t) : bool :=
  match a with S754_zero _ => false | _ => true end.

Definition truth (a : option Float64.t) : bool :=
  match a with Some x => float_truth x | None => false end.

(** An uploaded file: its MIME type, [uploaded_file.type], and whether
    [PIL.Image.open] identifies its content as an image (the uploader
    filters on the extension of the file name only, so a file named as a
    picture may hold anything). *)
Record upload : Type := mk_upload {
  mime : str;
  decodes : bool
}.

(** [Image.open(uploaded_file)], which raises on a content it cannot
    identify. *)
Definition image_open (file : upload) : store unit :=
  if decodes file then ret tt else raise UnidentifiedImageError.

(** [uploaded_file is not None]. *)
Definition is_uploaded (file : option upload) : bool :=
  match file with Some _ => true | None => false end.

(** What the form holds when it is submitted: [amount] is [None] when the
    number box is empty, [uploaded_file] is the receipt, [None] when there
    is none, [txn_date] is the chosen date and [now] the clock. *)
Record form : Type := mk_form {
  txn_type : str;
  form_amount : option Float64.t;
  form_category : str;
  txn_date : N * N * N;
  form_description : str;
  uploaded_file : option upload;
  now : datetime
}.

(** [datetime.combine(txn_date, datetime.now().time())]. *)
Definition combine (d : N * N * N) (clock : datetime) : datetime :=
  let '(y, m, dd) := d in
  mk_datetime y m dd (hour clock) (minute clock) (second clock)
              (microsecond clock).

(** The transaction the form builds from an amount. *)
Definition new_txn (f : form) (final_amount : Float64.t) : transaction :=
  mk_transaction (DateTime (combine (txn_date f) (now f)))
                 (txn_type f) final_amount (form_category f)
                 (form_description f) (is_uploaded (uploaded_file f))
                 (if is_uploaded (uploaded_file f) then Some sample_text
                  else None).

(** The receipt block of [add_transaction_form], which runs before the
    submit block: the preview opens an upload of an image type with
    [Image.open], unguarded, and the amount is read from the text of the
    simulated OCR. *)
Definition process_receipt (file : option upload)
  : store (option Float64.t) :=
  match file with
  | Some file =>
      let* _ :=
        (if is_prefix (py "image") (mime file) then image_open file
         else ret tt) in
      fun st => (extract_amount_from_text sample_text, st)
  | None => ret None
  end.

(** "Save Transaction" of [add_transaction_form]: the run of the script
    in which the button was pressed, and the message it shows. *)
Definition submit_transaction (current_user : str) (f : form) : store str :=
  let* extracted_amount := process_receipt (uploaded_file f) in
  let final_amount :=
    if truth (form_amount f) then form_amount f else extracted_amount in
  match final_amount with
  | Some a =>
      if negb (float_truth a)
      then ret (py "Please enter an amount or upload a receipt with a visible amount.")
      else if negb (nonempty (form_category f))
      then ret (py "Please select a category.")
      else
        let* _ := save_transaction current_user (new_txn f a) in
        ret (if is_uploaded (uploaded_file f)
             then py "✓ Transaction saved! Trust score increased by +5 points"
             else py "✓ Transaction saved! Trust score increased by +2 points")
  | None =>
      ret (py "Please enter an amount or upload a receipt with a visible amount.")
  end.

(** ** Quantities the statements speak of *)

#[global] Instance spec_float_eq_dec : EqDecision spec_float.
Proof. solve_decision. Defined.

(** Every cached score is the score of the user's ledger. *)
Definition cache_consistent (st : session_state) : Prop :=
  forall email u,
    users_db st !! email = Some u ->
    trust_score u = calculate_trust_score st email.

(** The entries of a ledger that pass the two filters of
    [transactions_page]. *)
Definition passes (filter_type filter_verified : str) (t : transaction) : bool :=
  (PyStr.eqb filter_type (py "All") || PyStr.eqb (type t) filter_type)
  && (if PyStr.eqb filter_verified (py "Verified Only") then verified t
      else if PyStr.eqb filter_verified (py "Unverified Only")
      then negb (verified t) else true).

(** Every element of a list is in relation [R] with the next one. *)
Fixpoint chain {A} (R : A -> A -> Prop) (l : list A) : Prop :=
  match l with
  | [] => True
  | x :: l' =>
      match l' with
      | [] => True
      | y :: _ => R x y
      end /\ chain R l'
  end.

(** No transaction is followed by one of a larger amount. *)
Definition descending (l : list transaction) : Prop :=
  chain (fun x y => Float64.ltb (amount x) (amount y) = false) l.

(** No transaction is followed by one of a smaller amount. *)
Definition ascending (l : list transaction) : Prop :=
  chain (fun x y => Float64.ltb (amount y) (amount x) = false) l.

(** Every transaction's amount is at least the next one's. *)
Definition non_increasing (l : list transaction) : Prop :=
  chain (fun x y => Float64.leb (amount y) (amount x) = true) l.

(** No amount of the ledger is a NaN. *)
Definition no_nan (l : list transaction) : bool :=
  forallb (fun t => negb (Float64.is_nan (amount t))) l.

(** The transactions of a given amount. *)
Definition has_amount (a : Float64.t) (t : transaction) : bool :=
  bool_decide (amount t = a).

(** A character that starts none of the labels: not T, t, A or a. *)
Definition no_label_start (c : N) : Prop :=
  c <> 84%N /\ c <> 116%N /\ c <> 65%N /\ c <> 97%N.

(** Every word a regular expression matches has a character in [P]. *)
Fixpoint must (P : N -> Prop) (r : regex) : Prop :=
  match r with
  | Lit l => Exists P l
  | Class p | Plus p => forall c, p c = true -> P c
  | Seq r1 r2 => must P r1 \/ must P r2
  | Alt r1 r2 => must P r1 /\ must P r2
  | Opt _ | Star _ => False
  | Group r1 => must P r1
  end.

(** A calendar date a [datetime] can hold. *)
Definition valid_date (d : datetime) : Prop :=
  (1 <= year d <= 9999 /\ 1 <= month d <= 12 /\ 1 <= day d <= 31)%N.

End Pages.

Module MoreSamples.
Import Re TrustBridge Spec Samples Pages.

Definition bob : str := py "bob@example.com".

(** A stand-in for the digest in the examples: the password reversed. *)
Definition toy_digest (s : str) : str := rev s.


Definition noon : datetime := mk_datetime 2024 1 5 12 0 0 0.

Definition broken_photo : upload := mk_upload (py "image/png") false.


Definition broken_form : form :=
  mk_form (py "Expense") None (py "Grocery") (2024, 1, 5)%N (py "")
          (Some broken_photo) noon.

(** Nothing uploaded and nothing typed. *)
Definition empty_form : form :=
  mk_form (py "Expense") None (py "Grocery") (2024, 1, 5)%N (py "") None noon.

(** A rent recorded in the evening of the day of [salary]. *)
Definition evening_rent : transaction :=
  mk_transaction (DateTime (mk_datetime 2024 1 5 20 30 0 0)) (py "Expense")
                 f200 (py "Rent") (py "") false None.

(** Alice's ledger with two expenses of 10.00, a week apart, and one of
    20.00 between them. *)
Definition week : list transaction := [grocery 8; large_early; grocery 1].

(** A hundred verified incomes on a hundred days. *)
Definition busy_day (d : nat) : transaction :=
  mk_transaction
    (at_noon 2024 (1 + N.of_nat (d / 28)) (1 + N.of_nat (d mod 28)))
    (py "Income") f100 (py "Salary") (py "") true (Some sample_text).

Definition busy_state : session_state :=
  mk_session_state {[ alice := alice_user ]}
                   {[ alice := map busy_day (seq 0 100) ]}.

End MoreSamples.

(* ===================================================================== *)
(** * The score *)
(* ===================================================================== *)

Module ScoreFacts.
Import Re TrustBridge Spec.

Lemma dates_fold (l : list transaction) (acc : gset (list N)) :
  fold_left (fun dates t => dates ∪ {[ date_str t ]}) l acc
  = acc ∪ list_to_set (map date_str l).
Proof.
  revert acc. induction l as [|t l IH]; intros acc; simpl.
  - set_solver.
  - rewrite IH. set_solver.
Qed.

(** The score of a ledger that is not empty, rule by rule. *)
Lemma score_of_nonempty (l : list transaction) :
  l <> [] ->
  score_of l =
    Z.min (300
           + Z.of_nat (length (List.filter verified l)) * 5
           + Z.of_nat (length l)
           + Z.of_nat (active_days l) * 2
           + (if 30 <=? Z.of_nat (active_days l) then 20 else 0)
           + (if income_exceeds_expense l then 15 else 0)
           + (if has_income l then 10 else 0))
          850.
Proof.
  intros Hne. destruct l as [|t l]; [congruence|].
  unfold score_of, active_days, income_exceeds_expense, has_income.
  rewrite dates_fold, (left_id_L ∅ (∪)).
  set (days := Z.of_nat (size _)).
  set (v := Z.of_nat (length (List.filter verified _))).
  set (n := Z.of_nat (length (t :: l))).
  destruct (30 <=? days); destruct (Float64.gtb _ _);
    destruct (List.filter (is_type (py "Income")) (t :: l)); f_equal; lia.
Qed.

Lemma active_days_cons (t : transaction) (l : list transaction) :
  (active_days l <= active_days (t :: l))%nat.
Proof.
  unfold active_days. apply subseteq_size. simpl. set_solver.
Qed.

Lemma active_days_NoDup (l : list transaction) :
  NoDup (map date_str l) -> active_days l = length l.
Proof.
  intros H. unfold active_days.
  rewrite size_list_to_set by exact H. apply length_map.
Qed.

Lemma verified_count_cons (t : transaction) (l : list transaction) :
  (length (List.filter verified l) <= length (List.filter verified (t :: l)))%nat.
Proof. cbn [List.filter]. destruct (verified t); cbn [length]; lia. Qed.

Lemma has_income_cons (t : transaction) (l : list transaction) :
  has_income l = true -> has_income (t :: l) = true.
Proof.
  unfold has_income. cbn [List.filter].
  destruct (is_type (py "Income") t); [reflexivity|]. auto.
Qed.

(** Every rule adds a quantity that is not negative, and the sum is capped. *)
Lemma score_of_bounds (l : list transaction) : 300 <= score_of l <= 850.
Proof.
  destruct l as [|t l]; [simpl; lia|].
  rewrite score_of_nonempty by discriminate.
  destruct (30 <=? _); destruct (income_exceeds_expense _);
    destruct (has_income _); lia.
Qed.

(** An append costs at most the income bonus, less the point it earns. *)
Lemma score_of_cons_lower (t : transaction) (l : list transaction) :
  score_of l - 14 <= score_of (t :: l).
Proof.
  destruct l as [|t0 l].
  - pose proof (score_of_bounds [t]). simpl (score_of []). lia.
  - rewrite !score_of_nonempty by discriminate.
    pose proof (active_days_cons t (t0 :: l)) as Hd.
    pose proof (verified_count_cons t (t0 :: l)) as Hv.
    pose proof (has_income_cons t (t0 :: l)) as Hi.
    change (length (t :: t0 :: l)) with (S (length (t0 :: l))).
    destruct (has_income (t0 :: l)); [rewrite Hi by reflexivity|];
      destruct (has_income (t :: t0 :: l));
      destruct (income_exceeds_expense (t0 :: l));
      destruct (income_exceeds_expense (t :: t0 :: l));
      destruct (Z.leb_spec 30 (Z.of_nat (active_days (t0 :: l))));
      destruct (Z.leb_spec 30 (Z.of_nat (active_days (t :: t0 :: l))));
      lia.
Qed.

Lemma score_of_cons_mono (t : transaction) (l : list transaction) :
  (income_exceeds_expense l = true -> income_exceeds_expense (t :: l) = true) ->
  score_of l <= score_of (t :: l).
Proof.
  intros Hb. destruct l as [|t0 l].
  - pose proof (score_of_bounds [t]). simpl (score_of []). lia.
  - rewrite !score_of_nonempty by discriminate.
    pose proof (active_days_cons t (t0 :: l)) as Hd.
    pose proof (verified_count_cons t (t0 :: l)) as Hv.
    pose proof (has_income_cons t (t0 :: l)) as Hi.
    change (length (t :: t0 :: l)) with (S (length (t0 :: l))).
    destruct (has_income (t0 :: l)); [rewrite Hi by reflexivity|];
      destruct (has_income (t :: t0 :: l));
      (destruct (income_exceeds_expense (t0 :: l));
       [rewrite Hb by reflexivity|]);
      destruct (income_exceeds_expense (t :: t0 :: l));
      destruct (Z.leb_spec 30 (Z.of_nat (active_days (t0 :: l))));
      destruct (Z.leb_spec 30 (Z.of_nat (active_days (t :: t0 :: l))));
      lia.
Qed.

Lemma filter_none {A} (f : A -> bool) (l : list A) :
  Forall (fun x => f x = false) l -> List.filter f l = [].
Proof.
  induction 1 as [|x l Hx _ IH]; [reflexivity|].
  cbn [List.filter]. now rewrite Hx.
Qed.

Lemma filter_all {A} (f : A -> bool) (l : list A) :
  Forall (fun x => f x = true) l -> List.filter f l = l.
Proof.
  induction 1 as [|x l Hx _ IH]; [reflexivity|].
  cbn [List.filter]. now rewrite Hx, IH.
Qed.

Lemma sum_amounts_map (l : list transaction) :
  sum_amounts l = fold_left Float64.add (map amount l) Float64.zero.
Proof.
  unfold sum_amounts. generalize Float64.zero.
  induction l as [|t l IH]; intros a; [reflexivity|]. apply IH.
Qed.

Lemma map_amount_const (a : Float64.t) (l : list transaction) :
  Forall (fun t => amount t = a) l -> map amount l = repeat a (length l).
Proof.
  induction 1 as [|t l Ht _ IH]; [reflexivity|].
  cbn [map length repeat]. now rewrite Ht, IH.
Qed.

(** What [save_transaction] leaves in the ledger, whether or not the score
    update finds the user. *)
Lemma save_transaction_ledger (st : session_state) (email : str)
    (t : transaction) :
  get_user_transactions (snd (save_transaction email t st)) email
  = t :: get_user_transactions st email.
Proof.
  unfold save_transaction, update_trust_score, bind, modify, gets, ret, raise.
  cbn [fst snd].
  destruct (transactions_db st !! email) as [l|] eqn:Hl; cbn [users_db transactions_db].
  - destruct (users_db st !! email);
      unfold get_user_transactions; cbn [snd transactions_db];
      rewrite lookup_insert_eq; reflexivity.
  - destruct (users_db st !! email);
      unfold get_user_transactions; cbn [snd transactions_db];
      rewrite !lookup_insert_eq, Hl; reflexivity.
Qed.

(** What [save_transaction] returns and leaves for a registered user. *)
Lemma save_transaction_registered (st : session_state) (email : str)
    (t : transaction) (u : user) :
  users_db st !! email = Some u ->
  save_transaction email t st
  = (Returned tt,
     mk_session_state
       (<[email := set_trust_score
                     (score_of (t :: get_user_transactions st email)) u]>
          (users_db st))
       (<[email := t :: get_user_transactions st email]>
          (match transactions_db st !! email with
           | Some _ => transactions_db st
           | None => <[email := []]> (transactions_db st)
           end))).
Proof.
  intros Hu.
  unfold save_transaction, update_trust_score, bind, modify, gets, ret, raise.
  destruct (transactions_db st !! email) as [l|] eqn:Hdb;
    cbn [users_db transactions_db]; rewrite Hu;
    unfold calculate_trust_score, get_user_transactions;
    cbn [users_db transactions_db];
    rewrite ?lookup_insert_eq, ?Hdb; cbn [default]; reflexivity.
Qed.

(** For an unknown user the subscript raises, after the ledger was
    written. *)
Lemma save_transaction_unknown (st : session_state) (email : str)
    (t : transaction) :
  users_db st !! email = None ->
  fst (save_transaction email t st) = Raised (KeyError email).
Proof.
  intros Hu.
  unfold save_transaction, update_trust_score, bind, modify, gets, ret, raise.
  destruct (transactions_db st !! email);
    cbn [users_db transactions_db]; rewrite Hu; reflexivity.
Qed.

End ScoreFacts.

Module ScoreClaims.
Import Re TrustBridge Spec Samples ScoreFacts.

(** C1. Whatever the ledger, empty or not, the recomputed score lies between
    300 and 850: the rules add to the base 300 and the total is capped at
    850. It holds of the body on every list and of [calculate_trust_score]
    on every state and user. *)
Theorem C1_score_bounds :
  (forall l : list transaction, 300 <= score_of l <= 850) /\
  (forall (st : session_state) (email : str),
      300 <= calculate_trust_score st email <= 850).
Proof.
  split.
  - exact score_of_bounds.
  - intros st email. apply score_of_bounds.
Qed.

(** C2. On an empty ledger the score is exactly 300, and its tier is
    "Starting" with the level "LEVEL 1". *)
Theorem C2_empty_ledger (st : session_state) (email : str) :
  get_user_transactions st email = [] ->
  calculate_trust_score st email = 300 /\
  get_score_tier (calculate_trust_score st email)
  = (py "Starting", py "#9E9E9E", py "LEVEL 1").
Proof.
  intros He. unfold calculate_trust_score. rewrite He. split; reflexivity.
Qed.

Lemma C2_empty_ledger_witness :
  get_user_transactions fresh alice = [] /\
  calculate_trust_score fresh alice = 300 /\
  get_score_tier (calculate_trust_score fresh alice)
  = (py "Starting", py "#9E9E9E", py "LEVEL 1").
Proof.
  split; [reflexivity | apply (C2_empty_ledger fresh alice); reflexivity].
Defined.

(** C3, as the claim has it, fails: Alice's ledger holds one income of
    100.00 and scores 328; recording a rent of 200.00 on the same day takes
    the income bonus away and the score falls to 314. *)
Lemma C3_counterexample :
  calculate_trust_score after_salary alice = 328 /\
  after_rent = snd (save_transaction alice rent after_salary) /\
  calculate_trust_score after_rent alice = 314 /\
  ~ (calculate_trust_score after_salary alice
     <= calculate_trust_score after_rent alice).
Proof.
  assert (H1 : calculate_trust_score after_salary alice = 328)
    by (vm_compute; reflexivity).
  assert (H2 : calculate_trust_score after_rent alice = 314)
    by (vm_compute; reflexivity).
  rewrite H1, H2. repeat split; lia.
Qed.

(** C3, amended. Saving a transaction never lowers the recomputed score by
    more than 14 points, and it does not lower it at all as long as the
    save does not turn the test "income > expense" from true to false. *)
Theorem C3_append_keeps_score (st : session_state) (email : str)
    (t : transaction) :
  let before := get_user_transactions st email in
  let st' := snd (save_transaction email t st) in
  calculate_trust_score st email - 14 <= calculate_trust_score st' email /\
  ((income_exceeds_expense before = true ->
    income_exceeds_expense (get_user_transactions st' email) = true) ->
   calculate_trust_score st email <= calculate_trust_score st' email).
Proof.
  intros before st'. unfold calculate_trust_score. subst st'.
  rewrite save_transaction_ledger. split.
  - apply score_of_cons_lower.
  - apply score_of_cons_mono.
Qed.

(** Alice's income of 100.00 exceeds her expenses before and after a snack
    of 50.00, and the score goes from 328 to 329; the rent of 200.00 takes
    exactly the 14 points. *)
Lemma C3_append_keeps_score_witness :
  let st' := snd (save_transaction alice snack after_salary) in
  (income_exceeds_expense (get_user_transactions after_salary alice) = true /\
   income_exceeds_expense (get_user_transactions st' alice) = true) /\
  (calculate_trust_score after_salary alice = 328 /\
   calculate_trust_score st' alice = 329) /\
  calculate_trust_score after_salary alice <= calculate_trust_score st' alice /\
  calculate_trust_score after_salary alice - 14
  <= calculate_trust_score (snd (save_transaction alice rent after_salary))
       alice.
Proof.
  intros st'. split; [|split; [|split]].
  - split; vm_compute; reflexivity.
  - split; vm_compute; reflexivity.
  - apply (proj2 (C3_append_keeps_score after_salary alice snack)).
    intros _. vm_compute. reflexivity.
  - apply (proj1 (C3_append_keeps_score after_salary alice rent)).
Defined.

(** C4. For a registered user, [save_transaction] returns, the ledger it
    leaves is the old one with the transaction at its head, and the score
    cached on the profile is the score recomputed over that ledger. *)
Theorem C4_cached_score_consistent (st : session_state) (email : str)
    (t : transaction) :
  is_Some (users_db st !! email) ->
  exists st',
    save_transaction email t st = (Returned tt, st') /\
    get_user_transactions st' email = t :: get_user_transactions st email /\
    cached_score st' email = Some (calculate_trust_score st' email) /\
    cached_score st' email
    = Some (score_of (t :: get_user_transactions st email)).
Proof.
  intros [u Hu].
  eexists. split; [apply (save_transaction_registered st email t u Hu)|].
  unfold cached_score, calculate_trust_score, get_user_transactions.
  cbn [users_db transactions_db].
  rewrite !lookup_insert_eq. repeat split; reflexivity.
Qed.

Lemma C4_cached_score_consistent_witness :
  is_Some (users_db fresh !! alice) /\
  exists st',
    save_transaction alice salary fresh = (Returned tt, st') /\
    get_user_transactions st' alice = salary :: get_user_transactions fresh alice /\
    cached_score st' alice = Some (calculate_trust_score st' alice) /\
    cached_score st' alice
    = Some (score_of (salary :: get_user_transactions fresh alice)).
Proof.
  assert (H : is_Some (users_db fresh !! alice))
    by (exists alice_user; reflexivity).
  split; [exact H | exact (C4_cached_score_consistent fresh alice salary H)].
Defined.

(** C5. A ledger of 30 transactions on 30 distinct calendar dates, none
    verified, all of type Expense and of amount 10.00, scores 410. *)
Theorem C5_thirty_expenses (st : session_state) (email : str) :
  let l := get_user_transactions st email in
  length l = 30%nat ->
  NoDup (map date_str l) ->
  Forall (fun t => verified t = false /\ type t = py "Expense"
                   /\ amount t = ten) l ->
  calculate_trust_score st email = 410.
Proof.
  intros l Hlen Hnd Hall. unfold calculate_trust_score. fold l.
  assert (Hne : l <> []) by (intros E; rewrite E in Hlen; discriminate).
  rewrite (score_of_nonempty l Hne).
  assert (Hv : List.filter verified l = []).
  { apply filter_none. eapply Forall_impl; [exact Hall|]; cbv beta.
    intros t (Hv & _ & _). exact Hv. }
  assert (Hi : List.filter (is_type (py "Income")) l = []).
  { apply filter_none. eapply Forall_impl; [exact Hall|]; cbv beta.
    intros t (_ & Ht & _). unfold is_type. rewrite Ht. reflexivity. }
  assert (He : List.filter (is_type (py "Expense")) l = l).
  { apply filter_all. eapply Forall_impl; [exact Hall|]; cbv beta.
    intros t (_ & Ht & _). unfold is_type. rewrite Ht. reflexivity. }
  assert (Ha : map amount l = repeat ten 30).
  { rewrite <- Hlen. apply map_amount_const.
    eapply Forall_impl; [exact Hall|]; cbv beta. intros t (_ & _ & Ha). exact Ha. }
  unfold income_exceeds_expense, has_income.
  rewrite Hv, Hi, He, (active_days_NoDup l Hnd), Hlen.
  rewrite (sum_amounts_map l), Ha.
  vm_compute. reflexivity.
Qed.

Lemma C5_thirty_expenses_witness :
  calculate_trust_score thirty_state alice = 410.
Proof.
  apply (C5_thirty_expenses thirty_state alice).
  - vm_compute. reflexivity.
  - apply (bool_decide_unpack _). vm_compute. exact I.
  - vm_compute. repeat constructor.
Defined.

End ScoreClaims.

Module ExtractFacts.
Import Re TrustBridge Spec.

(** ** ASCII digits *)

Ltac digit_cases d H :=
  let E := fresh "E" in
  assert (E : (d = 0 \/ d = 1 \/ d = 2 \/ d = 3 \/ d = 4 \/ d = 5 \/ d = 6
               \/ d = 7 \/ d = 8 \/ d = 9)%N) by lia;
  clear H; repeat (destruct E as [E|E]; [subst d|]); [..|subst d].

Lemma ascii_digit_value (d : N) :
  (d < 10)%N -> decimal_value (48 + d) = Some d.
Proof. intros H. digit_cases d H; reflexivity. Qed.

Lemma ascii_digit_is_digit (d : N) : (d < 10)%N -> is_digit (48 + d) = true.
Proof. intros H. unfold is_digit. now rewrite ascii_digit_value. Qed.

Lemma ascii_digit_not_space (d : N) : (d < 10)%N -> is_space (48 + d) = false.
Proof. intros H. digit_cases d H; reflexivity. Qed.

Lemma ascii_digit_not_comma_or_point (d : N) :
  (d < 10)%N -> comma_or_point (48 + d) = false.
Proof. intros H. digit_cases d H; reflexivity. Qed.

Lemma ascii_digit_not_point (d : N) : (d < 10)%N -> point (48 + d) = false.
Proof. intros H. digit_cases d H; reflexivity. Qed.

Lemma ascii_digit_not_comma (d : N) : (d < 10)%N -> (48 + d =? 44)%N = false.
Proof. intros H. apply N.eqb_neq. lia. Qed.

Lemma digit_chars_are_digits (ds : list N) :
  Forall (fun d => (d < 10)%N) ds ->
  Forall (fun c => is_digit c = true) (digit_chars ds).
Proof.
  intros H. unfold digit_chars. apply Forall_map.
  eapply Forall_impl; [exact H|]. intros d Hd. now apply ascii_digit_is_digit.
Qed.

(** ** The greedy star *)

(** A run of characters of the class in front of [s] does not change the
    outcome when the star already succeeds on [s]: it is consumed first and
    given back only if needed. *)
Lemma star_prefix {A} (p : N -> bool) (cs s : str) (k : str -> option A) x :
  Forall (fun c => p c = true) cs ->
  star p s k = Some x ->
  star p (cs ++ s) k = Some x.
Proof.
  intros Hcs Hs. induction Hcs as [|c cs Hc _ IH]; [exact Hs|].
  cbn [app star]. now rewrite Hc, IH.
Qed.

Lemma tail2_nil {A} g (k : str -> option str -> option A) : run tail2 [] g k = None.
Proof. reflexivity. Qed.

Lemma tail2_last {A} (d : N) g (k : str -> option str -> option A) :
  (d < 10)%N -> run tail2 [(48 + d)%N] g k = k [] g.
Proof.
  intros H. unfold tail2. cbn [run star].
  rewrite (ascii_digit_is_digit d H), (ascii_digit_not_point d H).
  reflexivity.
Qed.

Lemma tail2_digits {A} (ds : list N) g (k : str -> option str -> option A) x :
  Forall (fun d => (d < 10)%N) ds -> ds <> [] ->
  k [] g = Some x ->
  run tail2 (digit_chars ds) g k = Some x.
Proof.
  intros Hds Hne Hk.
  destruct ds as [|d0 ds0] using rev_ind; [congruence|]. clear IHds0.
  apply Forall_app in Hds as [Hds Hd]. inversion Hd as [|? ? Hd0 _]; subst.
  unfold digit_chars. rewrite map_app. cbn [map].
  change (run tail2 ?s g k) with
    (star is_digit s (fun s' => run (Seq (Opt point) (Plus is_digit)) s' g k)).
  rewrite <- (app_nil_r [_]).
  apply star_prefix; [now apply digit_chars_are_digits|].
  change (star is_digit ?s (fun s' => run (Seq (Opt point) (Plus is_digit)) s' g k))
    with (run tail2 s g k).
  rewrite app_nil_r.
  now rewrite tail2_last.
Qed.

Lemma tail1_digits {A} (ds : list N) g (k : str -> option str -> option A) x :
  Forall (fun d => (d < 10)%N) ds -> ds <> [] ->
  k [] g = Some x ->
  run tail1 (digit_chars ds) g k = Some x.
Proof.
  intros Hds Hne Hk. destruct ds as [|d ds]; [congruence|].
  inversion Hds as [|? ? Hd _]; subst.
  unfold tail1. cbn [run digit_chars map].
  rewrite (ascii_digit_not_comma_or_point d Hd).
  now apply (tail2_digits (d :: ds)).
Qed.

Lemma tail1_fraction {A} (fp : list N) g (k : str -> option str -> option A) x :
  Forall (fun d => (d < 10)%N) fp -> fp <> [] ->
  k [] g = Some x ->
  run tail1 (46%N :: digit_chars fp) g k = Some x.
Proof.
  intros Hfp Hne Hk. unfold tail1. cbn [run].
  change (comma_or_point 46) with true. cbv iota.
  now rewrite (tail2_digits fp g k x).
Qed.

(** The body of the group takes a whole literal of at least two digits. *)
Lemma body_takes_literal {A} (ip fp : list N) g
    (k : str -> option str -> option A) x :
  Forall (fun d => (d < 10)%N) ip -> Forall (fun d => (d < 10)%N) fp ->
  ip <> [] -> (2 <= length ip + length fp)%nat ->
  k [] g = Some x ->
  run (Seq (Plus is_digit) tail1) (render_digits ip fp) g k = Some x.
Proof.
  intros Hip Hfp Hne Hlen Hk.
  destruct ip as [|d ip]; [congruence|].
  inversion Hip as [|? ? Hd Hip']; subst.
  unfold render_digits. cbn [run digit_chars map app].
  rewrite (ascii_digit_is_digit d Hd).
  change (map (fun d0 : N => (48 + d0)%N) ip) with (digit_chars ip).
  destruct fp as [|f fp].
  - rewrite app_nil_r.
    destruct ip as [|d0 ip0 _] using rev_ind; [cbn in Hlen; lia|].
    apply Forall_app in Hip' as [Hip0 Hd0].
    unfold digit_chars. rewrite map_app.
    apply star_prefix; [now apply digit_chars_are_digits|].
    inversion Hd0 as [|? ? Hd0' _]; subst.
    cbn [map star]. rewrite (ascii_digit_is_digit d0 Hd0').
    change (run tail1 [] g k) with (@None A). cbv iota.
    now apply (tail1_digits [d0]).
  - apply star_prefix; [now apply digit_chars_are_digits|].
    cbn [star]. change (is_digit 46) with false. cbv iota.
    now apply tail1_fraction.
Qed.

Lemma run_Group {A} r s g (k : str -> option str -> option A) :
  run (Group r) s g k
  = run r s g (fun s' _ => k s' (Some (take (length s - length s')%nat s))).
Proof. reflexivity. Qed.

Lemma run_Seq {A} r1 r2 s g (k : str -> option str -> option A) :
  run (Seq r1 r2) s g k = run r1 s g (fun s' g' => run r2 s' g' k).
Proof. reflexivity. Qed.

Lemma group_takes_literal {A} (ip fp : list N) g
    (k : str -> option str -> option A) x :
  Forall (fun d => (d < 10)%N) ip -> Forall (fun d => (d < 10)%N) fp ->
  ip <> [] -> (2 <= length ip + length fp)%nat ->
  k [] (Some (render_digits ip fp)) = Some x ->
  run amount_group (render_digits ip fp) g k = Some x.
Proof.
  intros Hip Hfp Hne Hlen Hk. unfold amount_group. rewrite run_Group.
  apply (body_takes_literal ip fp); try assumption.
  cbn [length]. rewrite Nat.sub_0_r, firstn_all. exact Hk.
Qed.

Lemma run_Alt_l {A} r1 r2 s g (k : str -> option str -> option A) x :
  run r1 s g k = Some x -> run (Alt r1 r2) s g k = Some x.
Proof. intros H. cbn [run]. now rewrite H. Qed.

Lemma run_Lit {A} l s g (k : str -> option str -> option A) :
  run (Lit l) s g k = if is_prefix l s then k (drop (length l) s) g else None.
Proof. reflexivity. Qed.

Lemma run_Star {A} p s g (k : str -> option str -> option A) :
  run (Star p) s g k = star p s (fun s' => k s' g).
Proof. reflexivity. Qed.

Lemma run_Opt_take {A} p c s g (k : str -> option str -> option A) x :
  p c = true -> k s g = Some x -> run (Opt p) (c :: s) g k = Some x.
Proof. intros Hp Hk. cbn [run]. now rewrite Hp, Hk. Qed.

Lemma star_stop {A} (p : N -> bool) c s (k : str -> option A) :
  p c = false -> star p (c :: s) k = k (c :: s).
Proof. intros Hp. cbn [star]. now rewrite Hp. Qed.

(** ** The first pattern on ["TOTAL: $"] and a literal *)

Lemma labelled_total_prefix (r : str) m :
  star is_space r (fun s' => run amount_group s' None (fun _ g' => Some g'))
  = Some m ->
  match_here labelled_total (py "TOTAL: $" ++ r) = Some m.
Proof.
  intros Hs. unfold match_here, labelled_total, label.
  change (py "TOTAL: $" ++ r)
    with (84 :: 79 :: 84 :: 65 :: 76 :: 58 :: 32 :: 36 :: r)%N.
  rewrite run_Seq. apply run_Alt_l. rewrite run_Lit.
  change (is_prefix (py "TOTAL") (84 :: 79 :: 84 :: 65 :: 76 :: 58 :: 32 :: 36 :: r)%N)
    with true. cbv iota.
  change (drop (length (py "TOTAL")) (84 :: 79 :: 84 :: 65 :: 76 :: 58 :: 32 :: 36 :: r)%N)
    with (58 :: 32 :: 36 :: r)%N.
  rewrite run_Seq, run_Star.
  apply (star_prefix space_or_colon [58; 32]%N); [repeat constructor|].
  rewrite star_stop by reflexivity.
  rewrite run_Seq. apply run_Opt_take; [reflexivity|].
  rewrite run_Seq, run_Star. exact Hs.
Qed.

Lemma search_here r s m : match_here r s = Some m -> search r s = Some m.
Proof. intros H. destruct s; cbn [search]; now rewrite H. Qed.

Lemma labelled_total_literal (ip fp : list N) :
  Forall (fun d => (d < 10)%N) ip -> Forall (fun d => (d < 10)%N) fp ->
  ip <> [] -> (2 <= length ip + length fp)%nat ->
  search labelled_total (py "TOTAL: $" ++ render_digits ip fp)
  = Some (Some (render_digits ip fp)).
Proof.
  intros Hip Hfp Hne Hlen.
  apply search_here, labelled_total_prefix.
  assert (Hg : run amount_group (render_digits ip fp) None
                   (fun _ g' => Some g') = Some (Some (render_digits ip fp)))
    by now apply group_takes_literal.
  destruct ip as [|d ip]; [congruence|].
  inversion Hip as [|? ? Hd _]; subst.
  revert Hg. unfold render_digits. cbn [digit_chars map app].
  intros Hg. rewrite star_stop by now apply ascii_digit_not_space.
  exact Hg.
Qed.

(** ** [float] on a literal *)

Lemma float_unsigned (c : N) (s : str) :
  c <> 45%N -> c <> 43%N ->
  Float64.float (c :: s) = Float64.unsigned_literal (c :: s).
Proof.
  intros H1 H2. unfold Float64.float.
  destruct c as [|p]; [reflexivity|].
  do 6 (destruct p as [p|p|]; try reflexivity); congruence.
Qed.

Lemma span_digit_chars (ds : list N) (r : str) :
  Forall (fun d => (d < 10)%N) ds ->
  Float64.span_digits (digit_chars ds ++ r)
  = (ds ++ fst (Float64.span_digits r), snd (Float64.span_digits r)).
Proof.
  induction 1 as [|d ds Hd _ IH].
  - cbn [digit_chars map app]. now destruct (Float64.span_digits r).
  - cbn [digit_chars map app Float64.span_digits].
    rewrite (ascii_digit_value d Hd).
    change (map (fun d0 : N => (48 + d0)%N) ds) with (digit_chars ds).
    rewrite IH. reflexivity.
Qed.

Lemma unsigned_literal_render (ip fp : list N) :
  Forall (fun d => (d < 10)%N) ip -> Forall (fun d => (d < 10)%N) fp ->
  ip <> [] ->
  Float64.unsigned_literal (render_digits ip fp)
  = Some (Float64.of_decimal (Float64.number (ip ++ fp)) (length fp)).
Proof.
  intros Hip Hfp Hne. unfold Float64.unsigned_literal, render_digits.
  rewrite (span_digit_chars ip _ Hip).
  destruct fp as [|f fp].
  - cbn [Float64.span_digits fst snd]. rewrite !app_nil_r.
    destruct ip; [congruence|]. reflexivity.
  - inversion Hfp as [|? ? Hf _]; subst.
    change (Float64.span_digits (46%N :: digit_chars (f :: fp))) with
      (@nil N, 46%N :: digit_chars (f :: fp)).
    cbn [fst snd]. rewrite app_nil_r.
    rewrite <- (app_nil_r (digit_chars (f :: fp))).
    rewrite (span_digit_chars (f :: fp) [] Hfp).
    cbn [Float64.span_digits fst snd]. rewrite !app_nil_r.
    destruct ip; [congruence|]. reflexivity.
Qed.

Lemma float_render (ip fp : list N) :
  Forall (fun d => (d < 10)%N) ip -> Forall (fun d => (d < 10)%N) fp ->
  ip <> [] ->
  Float64.float (render_digits ip fp)
  = Some (Float64.of_decimal (Float64.number (ip ++ fp)) (length fp)).
Proof.
  intros Hip Hfp Hne.
  rewrite <- (unsigned_literal_render ip fp Hip Hfp Hne).
  destruct ip as [|d ip]; [congruence|].
  inversion Hip as [|? ? Hd _]; subst.
  unfold render_digits. cbn [digit_chars map app].
  apply float_unsigned; lia.
Qed.

Lemma replace_comma_render (ip fp : list N) :
  Forall (fun d => (d < 10)%N) ip -> Forall (fun d => (d < 10)%N) fp ->
  replace_comma (render_digits ip fp) = render_digits ip fp.
Proof.
  intros Hip Hfp. unfold replace_comma. apply ScoreFacts.filter_all.
  unfold render_digits. apply Forall_app. split.
  - apply Forall_map. eapply Forall_impl; [exact Hip|]. intros d Hd.
    cbv beta. apply negb_true_iff, N.eqb_neq. lia.
  - destruct fp as [|f fp]; [constructor|]. constructor; [reflexivity|].
    apply Forall_map. eapply Forall_impl; [exact Hfp|]. intros d Hd.
    cbv beta. apply negb_true_iff, N.eqb_neq. lia.
Qed.

(** The extractor on ["TOTAL: $"] and a literal of at least two digits. *)
Lemma extract_total_literal (ip fp : list N) :
  Forall (fun d => (d < 10)%N) ip -> Forall (fun d => (d < 10)%N) fp ->
  ip <> [] -> (2 <= length ip + length fp)%nat ->
  extract_amount_from_text (py "TOTAL: $" ++ render_digits ip fp)
  = Returned (Some (Float64.of_decimal (Float64.number (ip ++ fp))
                                       (length fp))).
Proof.
  intros Hip Hfp Hne Hlen.
  unfold extract_amount_from_text, patterns. cbn [extract_with].
  rewrite (labelled_total_literal ip fp Hip Hfp Hne Hlen).
  rewrite (replace_comma_render ip fp Hip Hfp).
  now rewrite (float_render ip fp Hip Hfp Hne).
Qed.

(** ** The digits of a number *)

Lemma number_from (l : list N) (a : N) :
  fold_left (fun acc d => (10 * acc + d)%N) l a
  = (a * 10 ^ N.of_nat (length l) + Float64.number l)%N.
Proof.
  unfold Float64.number. revert a.
  induction l as [|d l IH]; intros a.
  - cbn [fold_left length]. change (N.of_nat 0) with 0%N. rewrite N.pow_0_r. lia.
  - cbn [fold_left length]. rewrite (IH (10 * a + d)%N), (IH (10 * 0 + d)%N).
    rewrite Nat2N.inj_succ, N.pow_succ_r'. lia.
Qed.

Lemma number_cons (d : N) (l : list N) :
  Float64.number (d :: l) = (d * 10 ^ N.of_nat (length l) + Float64.number l)%N.
Proof.
  unfold Float64.number at 1. cbn [fold_left].
  rewrite number_from. lia.
Qed.

Lemma number_app (l1 l2 : list N) :
  Float64.number (l1 ++ l2)
  = (Float64.number l1 * 10 ^ N.of_nat (length l2) + Float64.number l2)%N.
Proof.
  unfold Float64.number at 1. rewrite fold_left_app. apply number_from.
Qed.

Lemma number_zeros (k : nat) : Float64.number (repeat 0%N k) = 0%N.
Proof.
  induction k as [|k IH]; [reflexivity|].
  cbn [repeat]. rewrite number_cons, IH. lia.
Qed.

Lemma digits_fuel_number (fuel : nat) (n : N) (acc : list N) :
  (n < 2 ^ N.of_nat fuel)%N ->
  Float64.number (digits_fuel fuel n acc)
  = (n * 10 ^ N.of_nat (length acc) + Float64.number acc)%N.
Proof.
  revert n acc. induction fuel as [|fuel IH]; intros n acc Hn.
  - change (N.of_nat 0) with 0%N in Hn. rewrite N.pow_0_r in Hn.
    assert (n = 0%N) by lia. subst n. cbn [digits_fuel]. lia.
  - cbn [digits_fuel]. destruct (N.ltb_spec n 10) as [Hlt|Hge].
    + apply number_cons.
    + rewrite Nat2N.inj_succ, N.pow_succ_r' in Hn.
      rewrite IH.
      * rewrite number_cons. cbn [length].
        rewrite Nat2N.inj_succ, N.pow_succ_r'.
        pose proof (N.div_mod n 10 ltac:(lia)) as Hdm. nia.
      * apply N.Div0.div_lt_upper_bound. lia.
Qed.

Lemma digits_of_number (n : N) : Float64.number (digits_of n) = n.
Proof.
  unfold digits_of. rewrite digits_fuel_number.
  - cbn [length]. change (Float64.number []) with 0%N.
    change (N.of_nat 0) with 0%N. rewrite N.pow_0_r. lia.
  - rewrite N2Nat.id. apply N.size_gt.
Qed.

Lemma digits_fuel_small (fuel : nat) (n : N) (acc : list N) :
  Forall (fun d => (d < 10)%N) acc ->
  Forall (fun d => (d < 10)%N) (digits_fuel fuel n acc).
Proof.
  revert n acc. induction fuel as [|fuel IH]; intros n acc Hacc; [exact Hacc|].
  cbn [digits_fuel]. destruct (N.ltb_spec n 10) as [Hlt|Hge].
  - now constructor.
  - apply IH. constructor; [|exact Hacc]. apply N.mod_lt. lia.
Qed.

Lemma digits_fuel_length (fuel : nat) (n : N) (acc : list N) :
  (length acc <= length (digits_fuel fuel n acc))%nat.
Proof.
  revert n acc. induction fuel as [|fuel IH]; intros n acc; [cbn; lia|].
  cbn [digits_fuel]. destruct (n <? 10)%N; [cbn; lia|].
  specialize (IH (n / 10)%N ((n mod 10)%N :: acc)). cbn [length] in IH. lia.
Qed.

Lemma digits_of_two (n : N) : (10 <= n)%N -> (2 <= length (digits_of n))%nat.
Proof.
  intros Hn. unfold digits_of.
  assert (Hs : (2 <= N.to_nat (N.size n))%nat).
  { assert (2 <= N.size n)%N; [|lia].
    destruct (N.le_gt_cases 2 (N.size n)) as [Hle|Hgt]; [exact Hle|].
    exfalso. pose proof (N.size_gt n) as Hg.
    assert (Hp : (2 ^ N.size n <= 2 ^ 1)%N) by (apply N.pow_le_mono_r; lia).
    change (2 ^ 1)%N with 2%N in Hp. lia. }
  destruct (N.to_nat (N.size n)) as [|[|fuel]]; try lia.
  cbn [digits_fuel]. destruct (N.ltb_spec n 10) as [Hlt|_]; [lia|].
  destruct (n / 10 <? 10)%N; [cbn; lia|].
  pose proof (digits_fuel_length fuel (n / 10 / 10)%N
                [((n / 10) mod 10)%N; (n mod 10)%N]) as Hl.
  cbn [length] in Hl. lia.
Qed.

(** The rendering of a decimal amount is a literal whose digits spell its
    units and whose fraction has [scale] digits. *)
Lemma render_is_literal (a : decimal) :
  exists ip fp,
    render a = render_digits ip fp /\
    Forall (fun d => (d < 10)%N) ip /\ Forall (fun d => (d < 10)%N) fp /\
    ip <> [] /\
    Float64.number (ip ++ fp) = units a /\
    length fp = scale a /\
    (length ip + length fp
     = Nat.max (S (scale a)) (length (digits_of (units a))))%nat.
Proof.
  unfold render.
  set (ds0 := digits_of (units a)).
  set (ds := repeat 0%N (S (scale a) - length ds0) ++ ds0).
  assert (Hlen : length ds = Nat.max (S (scale a)) (length ds0)).
  { unfold ds. rewrite length_app, repeat_length. lia. }
  assert (Hsmall : Forall (fun d => (d < 10)%N) ds).
  { unfold ds. apply Forall_app. split.
    - apply Forall_forall. intros d Hd.
      apply list_elem_of_In, repeat_spec in Hd. subst d. lia.
    - apply digits_fuel_small. constructor. }
  exists (take (length ds - scale a) ds), (drop (length ds - scale a) ds).
  split; [reflexivity|].
  split; [now apply Forall_take|].
  split; [now apply Forall_drop|].
  split.
  { intros E. apply (f_equal length) in E. rewrite length_take in E.
    cbn [length] in E. lia. }
  split.
  { rewrite take_drop. unfold ds. rewrite number_app, number_zeros.
    unfold ds0. rewrite digits_of_number. lia. }
  split.
  { rewrite length_drop. lia. }
  rewrite length_take, length_drop. lia.
Qed.

(** ** The matcher finds matches only *)

Lemma is_prefix_app (l s : str) :
  is_prefix l s = true -> s = l ++ drop (length l) s.
Proof.
  revert s. induction l as [|a l IH]; intros s H; [reflexivity|].
  destruct s as [|b s]; [discriminate|].
  cbn [is_prefix] in H. apply andb_true_iff in H as [Hab Hl].
  apply N.eqb_eq in Hab. subst b. cbn [length drop app]. f_equal. now apply IH.
Qed.

Lemma star_sound {A} (p : N -> bool) (s : str) (k : str -> option A) x :
  star p s k = Some x ->
  exists w s', s = w ++ s' /\ Forall (fun c => p c = true) w /\ k s' = Some x.
Proof.
  induction s as [|c s IH]; cbn [star]; intros H.
  - exists [], []. auto.
  - destruct (p c) eqn:Hp.
    + destruct (star p s k) as [y|] eqn:Hs.
      * injection H as ->. destruct (IH eq_refl) as (w & s' & -> & Hw & Hk).
        exists (c :: w), s'. repeat split; [constructor|]; assumption.
      * exists [], (c :: s). auto.
    + exists [], (c :: s). auto.
Qed.

Lemma run_sound {A} (r : regex) :
  forall (s : str) g (k : str -> option str -> option A) x,
    run r s g k = Some x ->
    exists w s' g', s = w ++ s' /\ matches r w g g' /\ k s' g' = Some x.
Proof.
  induction r as [l|p|r1 IH1 r2 IH2|r1 IH1 r2 IH2|p|p|p|r IH];
    intros s g k x H; cbn [run] in H.
  - destruct (is_prefix l s) eqn:Hl; [|discriminate].
    exists l, (drop (length l) s), g.
    split; [now apply is_prefix_app|]. split; [constructor|exact H].
  - destruct s as [|c s]; [discriminate|].
    destruct (p c) eqn:Hp; [|discriminate].
    exists [c], s, g. split; [reflexivity|]. split; [now constructor|exact H].
  - apply IH1 in H as (w1 & s1 & g1 & -> & Hm1 & H).
    apply IH2 in H as (w2 & s2 & g2 & -> & Hm2 & H).
    exists (w1 ++ w2), s2, g2. rewrite <- app_assoc.
    split; [reflexivity|]. split; [econstructor; eassumption|exact H].
  - destruct (run r1 s g k) as [y|] eqn:H1.
    + injection H as ->. apply IH1 in H1 as (w & s' & g' & -> & Hm & H).
      exists w, s', g'. split; [reflexivity|].
      split; [now apply M_Alt_l|exact H].
    + apply IH2 in H as (w & s' & g' & -> & Hm & H).
      exists w, s', g'. split; [reflexivity|].
      split; [now apply M_Alt_r|exact H].
  - assert (Hnone : k s g = Some x ->
                    exists w s' g', s = w ++ s' /\ matches (Opt p) w g g'
                                    /\ k s' g' = Some x).
    { intros Hk. exists [], s, g. split; [reflexivity|].
      split; [constructor|exact Hk]. }
    destruct s as [|c s]; [now apply Hnone|].
    destruct (p c) eqn:Hp; [|now apply Hnone].
    destruct (k s g) as [y|] eqn:Hk; [|now apply Hnone].
    injection H as ->. exists [c], s, g. split; [reflexivity|].
    split; [now constructor|exact Hk].
  - apply star_sound in H as (w & s' & -> & Hw & H).
    exists w, s', g. split; [reflexivity|]. split; [now constructor|exact H].
  - destruct s as [|c s]; [discriminate|].
    destruct (p c) eqn:Hp; [|discriminate].
    apply star_sound in H as (w & s' & -> & Hw & H).
    exists (c :: w), s', g. split; [reflexivity|].
    split; [constructor; now constructor|exact H].
  - apply IH in H as (w & s' & g' & -> & Hm & H).
    exists w, s', (Some w). split; [reflexivity|].
    split; [econstructor; eassumption|].
    rewrite length_app, Nat.add_sub, take_app_length in H. exact H.
Qed.

Lemma search_sound (r : regex) (s : str) m :
  search r s = Some m -> exists w, matches r w None m.
Proof.
  induction s as [|c s IH]; cbn [search]; intros H.
  - destruct (match_here r []) as [y|] eqn:Hm; [|discriminate].
    injection H as ->. apply run_sound in Hm as (w & s' & g' & _ & Hm & E).
    injection E as ->. now exists w.
  - destruct (match_here r (c :: s)) as [y|] eqn:Hm; [|now apply IH].
    injection H as ->. apply run_sound in Hm as (w & s' & g' & _ & Hm & E).
    injection E as ->. now exists w.
Qed.

(** ** What a group can hold *)

Lemma over_matches (P : N -> Prop) (r : regex) w g g' :
  matches r w g g' -> over P r -> Forall P w.
Proof.
  induction 1 as [l g|p c g Hc|r1 r2 w1 w2 g g1 g2 _ IH1 _ IH2
                  |r1 r2 w g g' _ IH|r1 r2 w g g' _ IH|p g|p c g Hc
                  |p w g Hw|p c w g Hw|r w g g' _ IH]; cbn [over]; intros Ho.
  - exact Ho.
  - constructor; [now apply Ho|constructor].
  - apply Forall_app. split; [apply IH1|apply IH2]; apply Ho.
  - apply IH, Ho.
  - apply IH, Ho.
  - constructor.
  - constructor; [now apply Ho|constructor].
  - eapply Forall_impl; [exact Hw|]. exact Ho.
  - eapply Forall_impl; [exact Hw|]. exact Ho.
  - now apply IH.
Qed.

Lemma groups_matches (P : N -> Prop) (r : regex) w g g' :
  matches r w g g' -> groups_over P r ->
  (g' = g \/ held P g') /\ (sets_group r = true -> held P g').
Proof.
  induction 1 as [l g|p c g Hc|r1 r2 w1 w2 g g1 g2 _ IH1 _ IH2
                  |r1 r2 w g g' _ IH|r1 r2 w g g' _ IH|p g|p c g Hc
                  |p w g Hw|p c w g Hw|r w g g' Hm IH];
    cbn [groups_over sets_group]; intros Ho;
    try (split; [now left|discriminate]).
  - destruct Ho as [Ho1 Ho2].
    destruct (IH1 Ho1) as [Hk1 Hs1]. destruct (IH2 Ho2) as [Hk2 Hs2].
    split.
    + destruct Hk2 as [->|Hh]; [exact Hk1|now right].
    + intros Hs. apply orb_true_iff in Hs as [Hs|Hs].
      * destruct Hk2 as [->|Hh]; [now apply Hs1|exact Hh].
      * now apply Hs2.
  - destruct Ho as [Ho1 Ho2]. destruct (IH Ho1) as [Hk Hs].
    split; [exact Hk|]. intros H. apply andb_true_iff in H as [H _]. auto.
  - destruct Ho as [Ho1 Ho2]. destruct (IH Ho2) as [Hk Hs].
    split; [exact Hk|]. intros H. apply andb_true_iff in H as [_ H]. auto.
  - assert (Hh : held P (Some w)).
    { exists w. split; [reflexivity|]. eapply over_matches; eassumption. }
    split; [now right|intros _; exact Hh].
Qed.

Lemma search_group (P : N -> Prop) (r : regex) (s : str) m :
  groups_over P r -> sets_group r = true ->
  search r s = Some m -> held P m.
Proof.
  intros Ho Hs H. apply search_sound in H as (w & Hm).
  now apply (groups_matches P r w None m Hm Ho).
Qed.


Lemma amount_group_over : over amount_char
  (Seq (Plus is_digit) (Seq (Opt comma_or_point) (Seq (Star is_digit)
  (Seq (Opt point) (Plus is_digit))))).
Proof.
  assert (Hd : forall c, is_digit c = true -> amount_char c)
    by (intros c Hc; left; exact Hc).
  assert (Hp : forall c, point c = true -> amount_char c).
  { intros c Hc. apply N.eqb_eq in Hc. right. right. exact Hc. }
  assert (Hcp : forall c, comma_or_point c = true -> amount_char c).
  { intros c Hc. unfold comma_or_point, one_of in Hc.
    apply bool_decide_eq_true in Hc.
    change (py ",.") with [44; 46]%N in Hc.
    apply elem_of_cons in Hc as [Hc|Hc]; [right; left; exact Hc|].
    apply elem_of_cons in Hc as [Hc|Hc]; [right; right; exact Hc|].
    apply elem_of_nil in Hc. destruct Hc. }
  cbn [over]. auto.
Qed.

Lemma patterns_groups :
  Forall (fun r => groups_over amount_char r /\ sets_group r = true) patterns.
Proof.
  pose proof amount_group_over as Ho.
  unfold patterns, labelled_total, sign_prefixed, code_suffixed, label,
    currency_code, amount_group.
  apply Forall_cons_2; [|apply Forall_cons_2; [|apply Forall_cons_2; [|apply Forall_nil_2]]];
    (split; [cbn [groups_over]; tauto | reflexivity]).
Qed.

(** ** The sign of what [float] returns *)

Lemma shr_1_nonneg (mrs : shr_record) : 0 <= shr_m mrs -> 0 <= shr_m (shr_1 mrs).
Proof.
  destruct mrs as [m r s]. cbn [shr_m]. intros H.
  destruct m as [|[p|p|]|p]; cbn; lia.
Qed.

Lemma iter_pos_nonneg (p : positive) (mrs : shr_record) :
  0 <= shr_m mrs -> 0 <= shr_m (SpecFloat.iter_pos shr_1 p mrs).
Proof.
  revert mrs. induction p as [p IH|p IH|]; intros mrs H; cbn [SpecFloat.iter_pos].
  - apply IH, IH, shr_1_nonneg, H.
  - apply IH, IH, H.
  - apply shr_1_nonneg, H.
Qed.

Lemma shr_fexp_nonneg (m e : Z) (l : location) :
  0 <= m -> 0 <= shr_m (fst (shr_fexp Float64.prec Float64.emax m e l)).
Proof.
  intros H. unfold shr_fexp, shr.
  assert (H0 : 0 <= shr_m (shr_record_of_loc m l))
    by (destruct l as [|[| |]]; exact H).
  destruct (_ - e) as [|p|p]; cbn [fst]; [exact H0| |exact H0].
  now apply iter_pos_nonneg.
Qed.

Lemma round_nearest_even_nonneg (m : Z) (l : location) :
  0 <= m -> 0 <= round_nearest_even m l.
Proof.
  intros H. unfold round_nearest_even.
  destruct l as [|[| |]]; [lia| |lia|lia]. destruct (Z.even m); lia.
Qed.

Lemma binary_round_aux_sign (m e : Z) (l : location) :
  0 <= m ->
  positive_or_zero (binary_round_aux Float64.prec Float64.emax false m e l).
Proof.
  intros H. unfold binary_round_aux.
  pose proof (shr_fexp_nonneg m e l H) as H1.
  destruct (shr_fexp Float64.prec Float64.emax m e l) as [mrs' e'].
  cbn [fst] in H1.
  pose proof (shr_fexp_nonneg
                (round_nearest_even (shr_m mrs') (loc_of_shr_record mrs'))
                e' loc_Exact
                (round_nearest_even_nonneg _ _ H1)) as H2.
  destruct (shr_fexp _ _ _ e' loc_Exact) as [mrs'' e''].
  cbn [fst] in H2.
  destruct (shr_m mrs'') as [|p|p]; [exact I| |lia].
  destruct (e'' <=? _); exact I.
Qed.

Lemma of_decimal_sign (m : N) (k : nat) :
  positive_or_zero (Float64.of_decimal m k).
Proof.
  destruct m as [|p]; [exact I|].
  unfold Float64.of_decimal, SFdiv, SFdiv_core_binary.
  set (m' := match _ with Z0 => Z.pos p | Z.pos _ => _ | Z.neg _ => 0 end).
  assert (Hm' : 0 <= m').
  { subst m'. destruct (_ - _ - _) as [|q|q]; [lia| |lia].
    apply Z.shiftl_nonneg. lia. }
  pose proof (Z_div_mod m' (Z.pos (Float64.pow10 k)) ltac:(lia)) as Hdm.
  destruct (Z.div_eucl m' (Z.pos (Float64.pow10 k))) as [q r].
  apply binary_round_aux_sign. nia.
Qed.

Lemma positive_or_zero_non_negative (a : Float64.t) :
  positive_or_zero a ->
  non_negative a = true /\ Float64.is_nan a = false.
Proof. destruct a as [[|]|[|]| |[|] m e]; cbn; intros H; now try destruct H. Qed.

(** ** The group, [float] and the extractor *)

Lemma unsigned_literal_sign (s : str) a :
  Float64.unsigned_literal s = Some a -> positive_or_zero a.
Proof.
  unfold Float64.unsigned_literal.
  destruct (Float64.span_digits s) as [ip r1].
  destruct (match r1 with 46%N :: r => _ | _ => _ end) as [fp r2].
  destruct r2; [|discriminate]. destruct (ip ++ fp); [discriminate|].
  intros H. injection H as <-. apply of_decimal_sign.
Qed.

(** A group without its commas starts with neither sign, so [float] reads
    it as an unsigned literal. *)
Lemma float_of_group (gtxt : str) a :
  Forall amount_char gtxt ->
  Float64.float (replace_comma gtxt) = Some a -> positive_or_zero a.
Proof.
  intros Hg.
  assert (Hr : Forall amount_char (replace_comma gtxt)).
  { unfold replace_comma. apply Forall_forall. intros c Hc.
    apply list_elem_of_In, filter_In in Hc as [Hc _].
    apply list_elem_of_In in Hc. revert c Hc. now apply Forall_forall. }
  destruct (replace_comma gtxt) as [|c s]; [apply unsigned_literal_sign|].
  inversion Hr as [|? ? Hc _]; subst.
  rewrite float_unsigned.
  - apply unsigned_literal_sign.
  - intros ->. destruct Hc as [Hc|[Hc|Hc]]; discriminate.
  - intros ->. destruct Hc as [Hc|[Hc|Hc]]; discriminate.
Qed.

Lemma extract_with_total (ps : list regex) (text : str) :
  Forall (fun r => groups_over amount_char r /\ sets_group r = true) ps ->
  extract_with ps text = Returned None \/
  exists a, extract_with ps text = Returned (Some a) /\ positive_or_zero a.
Proof.
  induction 1 as [|r ps [Ho Hs] _ IH]; [now left|].
  cbn [extract_with].
  destruct (search r text) as [m|] eqn:Hm; [|exact IH].
  destruct (search_group amount_char r text m Ho Hs Hm) as (gtxt & -> & Hg).
  destruct (Float64.float (replace_comma gtxt)) as [a|] eqn:Hf; [|exact IH].
  right. exists a. split; [reflexivity|]. now apply (float_of_group gtxt).
Qed.

(** When no pattern matches there is nothing to return. *)
Lemma extract_with_no_match (ps : list regex) (text : str) :
  (forall r, r ∈ ps -> search r text = None) ->
  extract_with ps text = Returned None.
Proof.
  induction ps as [|r ps IH]; intros H; [reflexivity|].
  cbn [extract_with]. rewrite (H r) by (apply elem_of_cons; now left).
  apply IH. intros r' Hr'. apply H. apply elem_of_cons. now right.
Qed.

(** ** A literal with one thousands separator *)

Lemma plus_digits {A} (ds : list N) g (k : str -> option str -> option A) x :
  Forall (fun d => (d < 10)%N) ds -> ds <> [] ->
  k [] g = Some x ->
  run (Plus is_digit) (digit_chars ds) g k = Some x.
Proof.
  intros Hds Hne Hk. destruct ds as [|d ds]; [congruence|].
  inversion Hds as [|? ? Hd Hds']; subst.
  cbn [run digit_chars map]. rewrite (ascii_digit_is_digit d Hd).
  change (map (fun d0 : N => (48 + d0)%N) ds) with (digit_chars ds).
  rewrite <- (app_nil_r (digit_chars ds)).
  apply star_prefix; [now apply digit_chars_are_digits|exact Hk].
Qed.

Lemma tail2_literal {A} (ip fp : list N) g
    (k : str -> option str -> option A) x :
  Forall (fun d => (d < 10)%N) ip -> Forall (fun d => (d < 10)%N) fp ->
  ip <> [] ->
  k [] g = Some x ->
  run tail2 (render_digits ip fp) g k = Some x.
Proof.
  intros Hip Hfp Hne Hk. unfold render_digits.
  destruct fp as [|f fp].
  - rewrite app_nil_r. now apply tail2_digits.
  - unfold tail2. rewrite run_Seq, run_Star.
    apply star_prefix; [now apply digit_chars_are_digits|].
    rewrite star_stop by reflexivity.
    rewrite run_Seq. apply run_Opt_take; [reflexivity|].
    now apply plus_digits.
Qed.

Lemma body_takes_separated {A} (ip1 ip2 fp : list N) g
    (k : str -> option str -> option A) x :
  Forall (fun d => (d < 10)%N) ip1 -> Forall (fun d => (d < 10)%N) ip2 ->
  Forall (fun d => (d < 10)%N) fp ->
  ip1 <> [] -> ip2 <> [] ->
  k [] g = Some x ->
  run (Seq (Plus is_digit) tail1)
      (digit_chars ip1 ++ 44%N :: render_digits ip2 fp) g k = Some x.
Proof.
  intros H1 H2 Hfp Hne1 Hne2 Hk.
  destruct ip1 as [|d ip1]; [congruence|].
  inversion H1 as [|? ? Hd H1']; subst.
  cbn [run digit_chars map app]. rewrite (ascii_digit_is_digit d Hd).
  change (map (fun d0 : N => (48 + d0)%N) ip1) with (digit_chars ip1).
  apply star_prefix; [now apply digit_chars_are_digits|].
  rewrite star_stop by reflexivity.
  unfold tail1. rewrite run_Seq. apply run_Opt_take; [reflexivity|].
  now apply tail2_literal.
Qed.

Lemma extract_total_separated (ip1 ip2 fp : list N) :
  Forall (fun d => (d < 10)%N) ip1 -> Forall (fun d => (d < 10)%N) ip2 ->
  Forall (fun d => (d < 10)%N) fp ->
  ip1 <> [] -> ip2 <> [] ->
  extract_amount_from_text
    (py "TOTAL: $" ++ digit_chars ip1 ++ 44%N :: render_digits ip2 fp)
  = Returned (Some (Float64.of_decimal (Float64.number ((ip1 ++ ip2) ++ fp))
                                       (length fp))).
Proof.
  intros H1 H2 Hfp Hne1 Hne2.
  set (s := digit_chars ip1 ++ 44%N :: render_digits ip2 fp).
  assert (Hm : search labelled_total (py "TOTAL: $" ++ s) = Some (Some s)).
  { apply search_here, labelled_total_prefix.
    assert (Hg : run amount_group s None (fun _ g' => Some g')
                 = Some (Some s)).
    { unfold amount_group. rewrite run_Group.
      apply (body_takes_separated ip1 ip2 fp); try assumption.
      cbn [length]. now rewrite Nat.sub_0_r, firstn_all. }
    revert Hg. subst s. destruct ip1 as [|d ip1]; [congruence|].
    inversion H1 as [|? ? Hd _]; subst. cbn [digit_chars map app].
    intros Hg. rewrite star_stop by now apply ascii_digit_not_space.
    exact Hg. }
  assert (Hr : replace_comma s = render_digits (ip1 ++ ip2) fp).
  { subst s. unfold replace_comma.
    rewrite List.filter_app. cbn [List.filter].
    change (negb (44 =? 44)%N) with false. cbv iota.
    fold (replace_comma (render_digits ip2 fp)).
    rewrite (replace_comma_render ip2 fp H2 Hfp).
    assert (Hf : List.filter (fun c => negb (c =? 44)%N) (digit_chars ip1)
                 = digit_chars ip1).
    { pose proof (replace_comma_render ip1 [] H1 (Forall_nil_2 _)) as E.
      unfold replace_comma, render_digits in E.
      now rewrite app_nil_r in E. }
    rewrite Hf. unfold render_digits, digit_chars.
    now rewrite map_app, app_assoc. }
  unfold extract_amount_from_text, patterns. cbn [extract_with].
  rewrite Hm, Hr.
  rewrite (float_render (ip1 ++ ip2) fp); [reflexivity| |exact Hfp|].
  - apply Forall_app. now split.
  - destruct ip1; [congruence|discriminate].
Qed.

(** ** The grouped rendering *)

Lemma digits_fuel_length_le (fuel : nat) (n : N) (acc : list N) (k : nat) :
  (n < 10 ^ N.of_nat (S k))%N ->
  (length (digits_fuel fuel n acc) <= S k + length acc)%nat.
Proof.
  revert n acc k. induction fuel as [|fuel IH]; intros n acc k Hn;
    [cbn [digits_fuel]; lia|].
  cbn [digits_fuel]. destruct (N.ltb_spec n 10) as [Hlt|Hge];
    [cbn [length]; lia|].
  destruct k as [|k].
  - change (10 ^ N.of_nat 1)%N with 10%N in Hn. lia.
  - etransitivity; [apply (IH _ _ k)|cbn [length]; lia].
    rewrite Nat2N.inj_succ, N.pow_succ_r' in Hn.
    apply N.Div0.div_lt_upper_bound. exact Hn.
Qed.

(** Up to six integer digits take at most one separator. *)
Lemma grouped_cases (ip : list N) :
  ip <> [] -> (length ip <= 6)%nat ->
  grouped ip = digit_chars ip \/
  exists ip1 ip2,
    ip = ip1 ++ ip2 /\ ip1 <> [] /\ ip2 <> [] /\
    grouped ip = digit_chars ip1 ++ 44%N :: digit_chars ip2.
Proof.
  intros Hne Hlen.
  destruct ip as [|a [|b [|c [|d [|e [|f [|g ip]]]]]]];
    try congruence; try (left; reflexivity); cbn [length] in Hlen; try lia.
  - right. exists [a], [b; c; d]. repeat split; discriminate.
  - right. exists [a; b], [c; d; e]. repeat split; discriminate.
  - right. exists [a; b; c], [d; e; f]. repeat split; discriminate.
Qed.

Lemma render_grouped_is_literal (a : decimal) :
  (units a < 10 ^ N.of_nat (6 + scale a))%N ->
  exists ip fp,
    Forall (fun d => (d < 10)%N) ip /\ Forall (fun d => (d < 10)%N) fp /\
    ip <> [] /\
    Float64.number (ip ++ fp) = units a /\
    length fp = scale a /\
    (length ip + length fp
     = Nat.max (S (scale a)) (length (digits_of (units a))))%nat /\
    (render_grouped a = render_digits ip fp \/
     exists ip1 ip2,
       ip = ip1 ++ ip2 /\ ip1 <> [] /\ ip2 <> [] /\
       render_grouped a = digit_chars ip1 ++ 44%N :: render_digits ip2 fp).
Proof.
  intros Hu. unfold render_grouped.
  set (ds0 := digits_of (units a)).
  set (ds := repeat 0%N (S (scale a) - length ds0) ++ ds0).
  assert (Hl0 : (length ds0 <= 6 + scale a)%nat).
  { subst ds0. unfold digits_of.
    pose proof (digits_fuel_length_le (N.to_nat (N.size (units a)))
                  (units a) [] (5 + scale a) Hu) as H.
    cbn [length] in H. lia. }
  assert (Hlen : length ds = Nat.max (S (scale a)) (length ds0)).
  { unfold ds. rewrite length_app, repeat_length. lia. }
  assert (Hsmall : Forall (fun d => (d < 10)%N) ds).
  { unfold ds. apply Forall_app. split.
    - apply Forall_forall. intros d Hd.
      apply list_elem_of_In, repeat_spec in Hd. subst d. lia.
    - apply digits_fuel_small. constructor. }
  set (ip := take (length ds - scale a) ds).
  set (fp := drop (length ds - scale a) ds).
  assert (Hipl : length ip = (length ds - scale a)%nat)
    by (subst ip; rewrite length_take; lia).
  assert (Hne : ip <> []).
  { intros E. rewrite E in Hipl. cbn [length] in Hipl. lia. }
  exists ip, fp.
  split; [now apply Forall_take|].
  split; [now apply Forall_drop|].
  split; [exact Hne|].
  split.
  { subst ip fp. rewrite take_drop. unfold ds.
    rewrite number_app, number_zeros.
    unfold ds0. rewrite digits_of_number. lia. }
  split; [subst fp; rewrite length_drop; lia|].
  split; [subst fp; rewrite Hipl, length_drop; lia|].
  assert (Hfrac : match fp with
                  | [] => []
                  | _ :: _ => 46%N :: digit_chars fp
                  end
                  = match fp with
                    | [] => []
                    | _ :: _ => 46%N :: digit_chars fp
                    end) by reflexivity.
  destruct (grouped_cases ip Hne ltac:(lia)) as [E|(ip1 & ip2 & E0 & N1 & N2 & E)].
  - left. rewrite E. unfold render_digits. now destruct fp.
  - right. exists ip1, ip2. repeat split; try assumption.
    rewrite E. unfold render_digits. rewrite <- app_assoc. cbn [app].
    now destruct fp.
Qed.

(** The extractor on ["TOTAL: $"] and a rendering, with thousands
    separators or without. *)
Lemma extract_total_rendering (a : decimal) (separators : bool) :
  (1 <= scale a)%nat \/ (10 <= units a)%N ->
  (separators = true -> (units a < 10 ^ N.of_nat (6 + scale a))%N) ->
  extract_amount_from_text
    (py "TOTAL: $" ++ (if separators then render_grouped a else render a))
  = Returned (Some (nearest_float a)).
Proof.
  intros Hd Hs. destruct separators.
  - destruct (render_grouped_is_literal a (Hs eq_refl))
      as (ip & fp & Hip & Hfp & Hne & Hnum & Hlen & Htot & [E|E]).
    + rewrite E, (extract_total_literal ip fp Hip Hfp Hne).
      * unfold nearest_float. now rewrite Hnum, Hlen.
      * rewrite Htot. destruct Hd as [Hsc|Hu]; [lia|].
        pose proof (digits_of_two (units a) Hu). lia.
    + destruct E as (ip1 & ip2 & -> & N1 & N2 & ->).
      apply Forall_app in Hip as [H1 H2].
      rewrite (extract_total_separated ip1 ip2 fp H1 H2 Hfp N1 N2).
      unfold nearest_float. now rewrite Hnum, Hlen.
  - destruct (render_is_literal a)
      as (ip & fp & -> & Hip & Hfp & Hne & Hnum & Hlen & Htot).
    rewrite (extract_total_literal ip fp Hip Hfp Hne).
    + unfold nearest_float. now rewrite Hnum, Hlen.
    + rewrite Htot. destruct Hd as [Hsc|Hu]; [lia|].
      pose proof (digits_of_two (units a) Hu). lia.
Qed.

End ExtractFacts.

Module ExtractClaims.
Import Re TrustBridge Spec Samples ExtractFacts.

(** C6, as the claim has it, fails. The amount 5 is rendered "5", and the
    group needs two digits: nothing is found. With two thousands separators
    the group stops after the second run of digits: 1,234,567.00 is read as
    1234. *)
Lemma C6_counterexample :
  render (mk_decimal 5 0) = py "5" /\
  extract_amount_from_text (py "TOTAL: $" ++ render (mk_decimal 5 0))
  = Returned None /\
  render_grouped (mk_decimal 123456700 2) = py "1,234,567.00" /\
  extract_amount_from_text (py "TOTAL: $1,234,567.00")
  = Returned (Some (Float64.of_decimal 1234 0)) /\
  Float64.of_decimal 1234 0 <> nearest_float (mk_decimal 123456700 2).
Proof.
  split; [reflexivity|]. split; [vm_compute; reflexivity|].
  split; [vm_compute; reflexivity|].
  split; [vm_compute; reflexivity|]. vm_compute. discriminate.
Qed.

(** C6, amended. For every decimal amount rendered in fixed point with at
    least two digits (a fraction, or units of 10 or more), either without
    thousands separators or with them when the integer part has at most
    six digits (so at most one separator), the extractor applied to
    "TOTAL: $" followed by the rendering returns the float nearest to the
    amount. *)
Theorem C6_total_round_trip (a : decimal) (separators : bool) :
  (1 <= scale a)%nat \/ (10 <= units a)%N ->
  (separators = true -> (units a < 10 ^ N.of_nat (6 + scale a))%N) ->
  extract_amount_from_text
    (py "TOTAL: $" ++ (if separators then render_grouped a else render a))
  = Returned (Some (nearest_float a)).
Proof.
  intros Hd Hs. now apply extract_total_rendering.
Qed.

(** 1250.00 and 999999.99 with their separator, 45.50 without. *)
Lemma C6_total_round_trip_witness :
  (render_grouped (mk_decimal 125000 2) = py "1,250.00" /\
   extract_amount_from_text
     (py "TOTAL: $" ++ render_grouped (mk_decimal 125000 2))
   = Returned (Some (nearest_float (mk_decimal 125000 2)))) /\
  (render_grouped (mk_decimal 99999999 2) = py "999,999.99" /\
   extract_amount_from_text
     (py "TOTAL: $" ++ render_grouped (mk_decimal 99999999 2))
   = Returned (Some (nearest_float (mk_decimal 99999999 2)))) /\
  (render (mk_decimal 4550 2) = py "45.50" /\
   extract_amount_from_text (py "TOTAL: $" ++ render (mk_decimal 4550 2))
   = Returned (Some (nearest_float (mk_decimal 4550 2)))).
Proof.
  split; [|split].
  - split; [vm_compute; reflexivity|].
    apply (C6_total_round_trip (mk_decimal 125000 2) true).
    + left. cbn [scale]. lia.
    + intros _. vm_compute. reflexivity.
  - split; [vm_compute; reflexivity|].
    apply (C6_total_round_trip (mk_decimal 99999999 2) true).
    + left. cbn [scale]. lia.
    + intros _. vm_compute. reflexivity.
  - split; [vm_compute; reflexivity|].
    apply (C6_total_round_trip (mk_decimal 4550 2) false).
    + left. cbn [scale]. lia.
    + discriminate.
Defined.

(** C7. On "Amount Due: ₦1,250.00" the extractor returns 1250.00. The
    patterns are tried in their fixed order: the labelled total does not
    match (the label is not followed by the amount), the currency sign
    does, with the group "1,250.00", whose comma is removed before
    [float]. *)
Theorem C7_amount_due :
  let text := py "Amount Due: ₦1,250.00" in
  patterns = [labelled_total; sign_prefixed; code_suffixed] /\
  search labelled_total text = None /\
  search sign_prefixed text = Some (Some (py "1,250.00")) /\
  replace_comma (py "1,250.00") = py "1250.00" /\
  extract_amount_from_text text = Returned (Some (Float64.of_decimal 125000 2)) /\
  Float64.of_decimal 125000 2 = S754_finite false (1250 * 2 ^ 42) (-42).
Proof. repeat split; vm_compute; reflexivity. Qed.

(** C8. When none of the patterns matches the text, the extractor returns
    [None]; it raises nothing. *)
Theorem C8_not_found (text : str) :
  (forall r, r ∈ patterns -> search r text = None) ->
  extract_amount_from_text text = Returned None.
Proof. apply extract_with_no_match. Qed.

Lemma C8_not_found_witness :
  contains (py "total") (py "no recognizable total here") = true /\
  extract_amount_from_text (py "no recognizable total here") = Returned None.
Proof.
  split; [reflexivity|].
  apply (C8_not_found (py "no recognizable total here")).
  intros r Hr. unfold patterns in Hr.
  repeat (apply elem_of_cons in Hr as [->|Hr]; [vm_compute; reflexivity|]).
  apply elem_of_nil in Hr. destruct Hr.
Defined.

(** C10, as the claim has it, fails: a run of 400 digits is beyond the range
    of a float, and the extractor returns infinity. *)
Lemma C10_counterexample :
  extract_amount_from_text (py "TOTAL " ++ nines)
  = Returned (Some (S754_infinity false)) /\
  Float64.is_finite (S754_infinity false) = false.
Proof. split; [vm_compute; reflexivity|reflexivity]. Qed.

(** C10, amended. On every text the extractor returns, without raising,
    either [None] or an amount that is not negative and not a NaN (it may
    be infinite). *)
Theorem C10_extract_total (text : str) :
  extract_amount_from_text text = Returned None \/
  exists a,
    extract_amount_from_text text = Returned (Some a) /\
    non_negative a = true /\ Float64.is_nan a = false.
Proof.
  destruct (extract_with_total patterns text patterns_groups)
    as [H|(a & H & Ha)]; [now left|].
  right. exists a. split; [exact H|].
  now apply positive_or_zero_non_negative.
Qed.

End ExtractClaims.

(* ===================================================================== *)
(** * The transaction list *)
(* ===================================================================== *)

Module QueryClaims.
Import Re TrustBridge Spec Samples.

(** C9, on the code. The ledger holds 10.00 of the 5th before 20.00 of the
    1st. "Amount (Low-High)" contains "High", so the list comes out in
    descending order of amount; the two date orders do not sort at all, and
    "Date (Oldest)" leaves the 5th before the 1st, as "Date (Newest)" leaves
    the 1st before the 5th on the ledger in the other order. *)
Theorem C9_sort_orders_on_the_code :
  contains (py "High") (py "Amount (Low-High)") = true /\
  transactions_page [small_late; large_early] (py "All") (py "All")
                    (py "Amount (Low-High)")
  = [large_early; small_late] /\
  transactions_page [small_late; large_early] (py "All") (py "All")
                    (py "Date (Oldest)")
  = [small_late; large_early] /\
  transactions_page [large_early; small_late] (py "All") (py "All")
                    (py "Date (Newest)")
  = [large_early; small_late].
Proof. repeat split; vm_compute; reflexivity. Qed.

End QueryClaims.

(* ===================================================================== *)
(** * More on the score and the ledger *)
(* ===================================================================== *)

Module LedgerFacts.
Import Re TrustBridge Spec Samples Pages ScoreFacts.

Lemma active_days_cons_upper (t : transaction) (l : list transaction) :
  (active_days (t :: l) <= S (active_days l))%nat.
Proof.
  unfold active_days. cbn [map list_to_set].
  rewrite size_union_alt, size_singleton.
  assert (size (list_to_set (map date_str l) ∖ {[date_str t]} : gset (list N))
          <= size (list_to_set (map date_str l) : gset (list N)))%nat
    by (apply subseteq_size; set_solver).
  lia.
Qed.

Lemma has_income_filter (l : list transaction) :
  has_income l = negb (Nat.eqb (length (List.filter (is_type (py "Income")) l)) 0).
Proof. unfold has_income. now destruct (List.filter _ l). Qed.

(** ** Additions of floats to zero *)

Lemma add_zero_gt (a : Float64.t) :
  Float64.gtb (Float64.add Float64.zero a) Float64.zero
  = Float64.gtb a Float64.zero.
Proof. destruct a as [[|]|[|]| |[|] m e]; reflexivity. Qed.

Lemma add_zero_lt (a : Float64.t) :
  Float64.gtb Float64.zero (Float64.add Float64.zero a)
  = Float64.ltb a Float64.zero.
Proof. destruct a as [[|]|[|]| |[|] m e]; reflexivity. Qed.

(** ** Permutations of a ledger *)

Lemma filter_length_perm {A} (f : A -> bool) (l l' : list A) :
  l ≡ₚ l' -> length (List.filter f l) = length (List.filter f l').
Proof.
  induction 1 as [|x l l' _ IH|x y l|l1 l2 l3 _ IH1 _ IH2].
  - reflexivity.
  - cbn [List.filter]. destruct (f x); cbn [length]; now rewrite IH.
  - cbn [List.filter]. destruct (f x), (f y); reflexivity.
  - now rewrite IH1.
Qed.

Lemma active_days_perm (l l' : list transaction) :
  l ≡ₚ l' -> active_days l = active_days l'.
Proof.
  intros H. unfold active_days. f_equal. apply set_eq. intros x.
  rewrite !elem_of_list_to_set. now rewrite H.
Qed.

Lemma score_of_perm (l l' : list transaction) :
  l ≡ₚ l' ->
  score_of l - 15 <= score_of l' <= score_of l + 15 /\
  (income_exceeds_expense l = income_exceeds_expense l' ->
   score_of l = score_of l').
Proof.
  intros Hp.
  destruct l as [|t l].
  { apply Permutation_nil in Hp. subst l'. cbn. split; [lia|reflexivity]. }
  destruct l' as [|t' l'].
  { symmetry in Hp. apply Permutation_nil in Hp. discriminate. }
  rewrite !score_of_nonempty by discriminate.
  rewrite !has_income_filter.
  rewrite <- (filter_length_perm verified _ _ Hp).
  rewrite <- (filter_length_perm (is_type (py "Income")) _ _ Hp).
  rewrite <- (active_days_perm _ _ Hp).
  rewrite <- (Permutation_length Hp).
  destruct (negb _), (30 <=? _), (income_exceeds_expense (t :: l)),
    (income_exceeds_expense (t' :: l'));
    split; try (intros; discriminate); try reflexivity; lia.
Qed.

(** The score of a ledger of one transaction. *)
Lemma score_of_single (t : transaction) :
  score_of [t]
  = 303 + (if verified t then 5 else 0)
    + (if is_type (py "Income") t
       then 10 + (if Float64.gtb (amount t) Float64.zero then 15 else 0)
       else if is_type (py "Expense") t
            then (if Float64.ltb (amount t) Float64.zero then 15 else 0)
            else 0).
Proof.
  rewrite score_of_nonempty by discriminate.
  assert (Hd : active_days [t] = 1%nat).
  { unfold active_days. cbn [map list_to_set].
    rewrite (right_id_L ∅ (∪)). apply size_singleton. }
  rewrite Hd. change (30 <=? Z.of_nat 1) with false.
  unfold income_exceeds_expense, has_income, sum_amounts.
  cbn [List.filter].
  destruct (is_type (py "Income") t) eqn:Hi;
    destruct (is_type (py "Expense") t) eqn:He.
  - exfalso. unfold is_type, PyStr.eqb in Hi, He.
    apply bool_decide_eq_true in Hi, He. rewrite Hi in He. discriminate.
  - cbn [fold_left]. rewrite add_zero_gt.
    destruct (verified t), (Float64.gtb _ _); reflexivity.
  - cbn [fold_left]. rewrite add_zero_lt.
    destruct (verified t), (Float64.ltb _ _); reflexivity.
  - cbn [fold_left]. destruct (verified t); reflexivity.
Qed.

(** What [save_transaction] leaves for the others. *)
Lemma save_transaction_frame (st : session_state) (email other : str)
    (t : transaction) :
  other <> email ->
  let st' := snd (save_transaction email t st) in
  users_db st' !! other = users_db st !! other /\
  get_user_transactions st' other = get_user_transactions st other.
Proof.
  intros Hne.
  unfold save_transaction, update_trust_score, bind, modify, gets, ret, raise,
    get_user_transactions.
  destruct (transactions_db st !! email);
    cbn [users_db transactions_db];
    destruct (users_db st !! email); cbn [snd users_db transactions_db];
    rewrite ?lookup_insert_ne by congruence; split; reflexivity.
Qed.

(** What [save_transaction] does for an unknown user. *)
Lemma save_transaction_unknown_state (st : session_state) (email : str)
    (t : transaction) :
  users_db st !! email = None ->
  exists st',
    save_transaction email t st = (Raised (KeyError email), st') /\
    users_db st' = users_db st /\
    get_user_transactions st' email = t :: get_user_transactions st email.
Proof.
  intros Hu.
  pose proof (save_transaction_ledger st email t) as Hl. revert Hl.
  unfold save_transaction, update_trust_score, bind, modify, gets, ret, raise.
  destruct (transactions_db st !! email);
    cbn [users_db transactions_db]; rewrite Hu; cbn [snd]; intros Hl;
    (eexists; split; [reflexivity|]); (split; [reflexivity|exact Hl]).
Qed.

Lemma active_days_le_length (l : list transaction) :
  (active_days l <= length l)%nat.
Proof.
  induction l as [|t l IH]; [reflexivity|].
  pose proof (active_days_cons_upper t l). cbn [length]. lia.
Qed.

Lemma active_days_pos (t : transaction) (l : list transaction) :
  (1 <= active_days (t :: l))%nat.
Proof.
  unfold active_days. cbn [map list_to_set].
  rewrite <- (size_singleton (date_str t) (C := gset (list N))).
  apply subseteq_size. set_solver.
Qed.

(** The score against the size of the ledger. *)
Lemma score_of_size (l : list transaction) :
  l <> [] ->
  Z.min 850 (302 + Z.of_nat (length l)) <= score_of l
  <= 345 + 8 * Z.of_nat (length l).
Proof.
  intros Hne. rewrite (score_of_nonempty l Hne).
  destruct l as [|t l]; [congruence|].
  pose proof (active_days_le_length (t :: l)) as Hd.
  pose proof (active_days_pos t l) as Hp.
  assert (Hv : (length (List.filter verified (t :: l)) <= length (t :: l))%nat)
    by apply filter_length_le.
  destruct (30 <=? _), (income_exceeds_expense _), (has_income _); lia.
Qed.

End LedgerFacts.

Module LedgerExtras.
Import Re TrustBridge Spec Samples Pages MoreSamples ScoreFacts LedgerFacts.

(** X1. Saving a transaction changes the recomputed score by at least -14
    and at most +53, whatever the ledger and the transaction. *)
Theorem save_moves_score_within (st : session_state) (email : str)
    (t : transaction) :
  let st' := snd (save_transaction email t st) in
  calculate_trust_score st email - 14 <= calculate_trust_score st' email
  <= calculate_trust_score st email + 53.
Proof.
  intros st'. subst st'. unfold calculate_trust_score.
  rewrite save_transaction_ledger.
  set (l := get_user_transactions st email).
  split; [apply score_of_cons_lower|].
  destruct l as [|t0 l].
  - rewrite score_of_nonempty by discriminate. cbn [score_of].
    pose proof (active_days_cons_upper t []) as Hd.
    change (active_days []) with 0%nat in Hd.
    assert (Hv : (length (List.filter verified [t]) <= 1)%nat)
      by (cbn [List.filter]; destruct (verified t); cbn; lia).
    cbn [length].
    destruct (30 <=? _) eqn:E; [apply Z.leb_le in E; lia|].
    destruct (income_exceeds_expense [t]), (has_income [t]); lia.
  - rewrite !score_of_nonempty by discriminate.
    pose proof (active_days_cons_upper t (t0 :: l)) as Hd.
    assert (Hv : (length (List.filter verified (t :: t0 :: l))
                  <= S (length (List.filter verified (t0 :: l))))%nat)
      by (cbn [List.filter]; destruct (verified t); cbn [length]; lia).
    change (length (t :: t0 :: l)) with (S (length (t0 :: l))).
    destruct (has_income (t0 :: l)), (has_income (t :: t0 :: l)),
      (income_exceeds_expense (t0 :: l)),
      (income_exceeds_expense (t :: t0 :: l)),
      (Z.leb_spec 30 (Z.of_nat (active_days (t0 :: l)))),
      (Z.leb_spec 30 (Z.of_nat (active_days (t :: t0 :: l)))); lia.
Qed.

(** X2. The score cached after the first transaction of a registered user:
    303, plus 5 when verified, plus 10 for an Income and 15 more when its
    amount is above zero (on an Expense the 15 are for an amount below
    zero). *)
Theorem first_transaction_score (st : session_state) (email : str)
    (t : transaction) :
  is_Some (users_db st !! email) ->
  get_user_transactions st email = [] ->
  cached_score (snd (save_transaction email t st)) email
  = Some (303 + (if verified t then 5 else 0)
          + (if is_type (py "Income") t
             then 10 + (if Float64.gtb (amount t) Float64.zero then 15 else 0)
             else if is_type (py "Expense") t
                  then (if Float64.ltb (amount t) Float64.zero then 15 else 0)
                  else 0)).
Proof.
  intros [u Hu] He.
  rewrite (save_transaction_registered st email t u Hu), He.
  unfold cached_score. cbn [snd users_db]. rewrite lookup_insert_eq.
  cbn [fmap option_fmap option_map set_trust_score trust_score].
  now rewrite score_of_single.
Qed.

Lemma first_transaction_score_witness :
  cached_score (snd (save_transaction alice salary fresh)) alice = Some 328.
Proof.
  apply (first_transaction_score fresh alice salary).
  - exists alice_user. reflexivity.
  - reflexivity.
Defined.

(** X3. The order of the ledger matters to the score through the test
    "income > expense" only (the two totals are sums of floats, taken in
    ledger order): two orderings of the same transactions score within 15
    of each other, and the same when the test agrees. *)
Theorem score_of_reordered_ledger (l l' : list transaction) :
  l ≡ₚ l' ->
  score_of l - 15 <= score_of l' <= score_of l + 15 /\
  (income_exceeds_expense l = income_exceeds_expense l' ->
   score_of l = score_of l').
Proof. apply score_of_perm. Qed.

Lemma score_of_reordered_ledger_witness :
  score_of [salary; rent] - 15 <= score_of [rent; salary]
  <= score_of [salary; rent] + 15 /\
  (income_exceeds_expense [salary; rent]
   = income_exceeds_expense [rent; salary] ->
   score_of [salary; rent] = score_of [rent; salary]).
Proof.
  apply (score_of_reordered_ledger [salary; rent] [rent; salary]).
  apply perm_swap.
Defined.

(** X4. For an email without a user record [save_transaction] raises
    [KeyError], but only after the write: the users are as before and the
    ledger of that email now starts with the transaction. *)
Theorem save_transaction_unknown_user (st : session_state) (email : str)
    (t : transaction) :
  users_db st !! email = None ->
  exists st',
    save_transaction email t st = (Raised (KeyError email), st') /\
    users_db st' = users_db st /\
    get_user_transactions st' email = t :: get_user_transactions st email.
Proof. apply save_transaction_unknown_state. Qed.

Lemma save_transaction_unknown_user_witness :
  exists st',
    save_transaction bob salary fresh = (Raised (KeyError bob), st') /\
    users_db st' = users_db fresh /\
    get_user_transactions st' bob = salary :: get_user_transactions fresh bob.
Proof.
  apply (save_transaction_unknown_user fresh bob salary).
  vm_compute. reflexivity.
Defined.

(** X5. [save_transaction] for one user touches nobody else: the record
    and the ledger of every other email are as before; and of the user's
    own record only the score changes. *)
Theorem save_transaction_touches_one_user (st : session_state)
    (email other : str) (t : transaction) :
  other <> email ->
  let st' := snd (save_transaction email t st) in
  users_db st' !! other = users_db st !! other /\
  get_user_transactions st' other = get_user_transactions st other /\
  (forall u, users_db st !! email = Some u ->
     users_db st' !! email
     = Some (set_trust_score (calculate_trust_score st' email) u)).
Proof.
  intros Hne st'.
  destruct (save_transaction_frame st email other t Hne) as [H1 H2].
  split; [exact H1|]. split; [exact H2|].
  intros u Hu. subst st'. unfold calculate_trust_score.
  rewrite save_transaction_ledger.
  rewrite (save_transaction_registered st email t u Hu).
  cbn [snd users_db]. now rewrite lookup_insert_eq.
Qed.

Lemma save_transaction_touches_one_user_witness :
  let st' := snd (save_transaction alice salary fresh) in
  users_db st' !! bob = users_db fresh !! bob /\
  get_user_transactions st' bob = get_user_transactions fresh bob /\
  (forall u, users_db fresh !! alice = Some u ->
     users_db st' !! alice
     = Some (set_trust_score (calculate_trust_score st' alice) u)).
Proof.
  apply (save_transaction_touches_one_user fresh alice bob salary).
  vm_compute. discriminate.
Defined.

(** X6. Two saves in a row: the ledger holds the second transaction before
    the first, and the cached score is the score of that ledger. *)
Theorem two_saves (st : session_state) (email : str) (t1 t2 : transaction) :
  is_Some (users_db st !! email) ->
  let st2 := snd (save_transaction email t2
                    (snd (save_transaction email t1 st))) in
  get_user_transactions st2 email = t2 :: t1 :: get_user_transactions st email
  /\ cached_score st2 email
     = Some (score_of (t2 :: t1 :: get_user_transactions st email)).
Proof.
  intros [u Hu] st2. subst st2.
  rewrite !save_transaction_ledger. split; [reflexivity|].
  set (st1 := snd (save_transaction email t1 st)).
  assert (Hu1 : is_Some (users_db st1 !! email)).
  { subst st1. rewrite (save_transaction_registered st email t1 u Hu).
    cbn [snd users_db]. rewrite lookup_insert_eq. eauto. }
  destruct Hu1 as [u1 Hu1].
  rewrite (save_transaction_registered st1 email t2 u1 Hu1).
  unfold cached_score. cbn [snd users_db]. rewrite lookup_insert_eq.
  cbn [fmap option_fmap option_map set_trust_score trust_score].
  subst st1. now rewrite save_transaction_ledger.
Qed.

Lemma two_saves_witness :
  let st2 := snd (save_transaction alice rent
                    (snd (save_transaction alice salary fresh))) in
  get_user_transactions st2 alice
  = rent :: salary :: get_user_transactions fresh alice
  /\ cached_score st2 alice
     = Some (score_of (rent :: salary :: get_user_transactions fresh alice)).
Proof.
  apply (two_saves fresh alice salary rent).
  exists alice_user. reflexivity.
Defined.

(** X7. The score against the size of the ledger: a ledger of n
    transactions, n at least 1, scores at least 302 + n (or the cap 850)
    and at most 345 + 8 n; so 548 transactions are enough for 850. *)
Theorem score_against_ledger_size (l : list transaction) :
  l <> [] ->
  Z.min 850 (302 + Z.of_nat (length l)) <= score_of l
  <= 345 + 8 * Z.of_nat (length l)
  /\ ((548 <= length l)%nat -> score_of l = 850).
Proof.
  intros Hne. pose proof (score_of_size l Hne) as Hs.
  pose proof (score_of_bounds l) as Hb. split; [exact Hs|]. lia.
Qed.

Lemma score_against_ledger_size_witness :
  Z.min 850 (302 + Z.of_nat (length thirty_days)) <= score_of thirty_days
  <= 345 + 8 * Z.of_nat (length thirty_days)
  /\ ((548 <= length thirty_days)%nat -> score_of thirty_days = 850).
Proof.
  apply (score_against_ledger_size thirty_days).
  vm_compute. discriminate.
Defined.

(** X8. The tier "Excellent" takes a ledger of 51 transactions or more,
    and "Good" one of 39 or more. *)
Theorem tiers_take_transactions (st : session_state) (email : str) :
  let score := calculate_trust_score st email in
  let n := length (get_user_transactions st email) in
  (fst (fst (get_score_tier score)) = py "Excellent" -> (51 <= n)%nat) /\
  (fst (fst (get_score_tier score)) = py "Good" -> (39 <= n)%nat).
Proof.
  intros score n. subst score n. unfold calculate_trust_score.
  set (l := get_user_transactions st email).
  assert (Hs : score_of l <= 345 + 8 * Z.of_nat (length l)).
  { destruct l as [|t l']; [cbn; lia|].
    apply score_of_size. discriminate. }
  unfold get_score_tier.
  destruct (Z.leb_spec 750 (score_of l));
    [split; intros E; first [lia | vm_compute in E; discriminate]|].
  destruct (Z.leb_spec 650 (score_of l));
    [split; intros E; first [lia | vm_compute in E; discriminate]|].
  destruct (500 <=? score_of l);
    [split; intros E; vm_compute in E; discriminate|].
  destruct (400 <=? score_of l); split; intros E; vm_compute in E;
    discriminate.
Qed.

Lemma tiers_take_transactions_witness :
  fst (fst (get_score_tier (calculate_trust_score busy_state alice)))
  = py "Excellent" /\
  (51 <= length (get_user_transactions busy_state alice))%nat.
Proof.
  assert (H : fst (fst (get_score_tier
                          (calculate_trust_score busy_state alice)))
              = py "Excellent") by (vm_compute; reflexivity).
  split; [exact H|].
  exact (proj1 (tiers_take_transactions busy_state alice) H).
Defined.

End LedgerExtras.

(* ===================================================================== *)
(** * Accounts and the password meter *)
(* ===================================================================== *)

Module AccountFacts.
Import Re TrustBridge Spec Samples Pages MoreSamples ScoreFacts LedgerFacts.

Section WithDigest.
Variable digest : str -> str.

Lemma save_user_state (email name password plan now : str)
    (st : session_state) :
  save_user digest email name password plan now st
  = (Returned true,
     mk_session_state
       (<[email := mk_user name email (digest password) plan now 300 0 None]>
          (users_db st))
       (<[email := []]> (transactions_db st))).
Proof. reflexivity. Qed.

Lemma consistent_save_user (email name password plan now : str)
    (st : session_state) :
  cache_consistent st ->
  cache_consistent (snd (save_user digest email name password plan now st)).
Proof.
  intros Hc e u. rewrite save_user_state.
  unfold calculate_trust_score, get_user_transactions.
  cbn [snd users_db transactions_db].
  destruct (decide (e = email)) as [->|Hne].
  - rewrite !lookup_insert_eq. intros [= <-]. reflexivity.
  - rewrite !lookup_insert_ne by congruence. apply Hc.
Qed.

Lemma consistent_save_transaction (email : str) (t : transaction)
    (st : session_state) :
  cache_consistent st ->
  cache_consistent (snd (save_transaction email t st)).
Proof.
  intros Hc e u.
  destruct (decide (e = email)) as [->|Hne].
  - unfold calculate_trust_score. rewrite save_transaction_ledger.
    destruct (users_db st !! email) as [u0|] eqn:Hu.
    + rewrite (save_transaction_registered st email t u0 Hu).
      cbn [snd users_db]. rewrite lookup_insert_eq. intros [= <-]. reflexivity.
    + destruct (save_transaction_unknown_state st email t Hu)
        as (st' & E & Hus & _).
      rewrite E. cbn [snd]. rewrite Hus, Hu. discriminate.
  - destruct (save_transaction_frame st email e t Hne) as [H1 H2].
    unfold calculate_trust_score. rewrite H1, H2. apply Hc.
Qed.

Lemma consistent_save_changes (current_user new_name : str)
    (st : session_state) :
  cache_consistent st ->
  cache_consistent (snd (save_changes current_user new_name st)).
Proof.
  intros Hc e u. unfold save_changes.
  destruct (users_db st !! current_user) as [u0|] eqn:Hu; [|apply Hc].
  unfold calculate_trust_score, get_user_transactions.
  cbn [snd users_db transactions_db].
  destruct (decide (e = current_user)) as [->|Hne].
  - rewrite lookup_insert_eq. intros [= <-]. cbn [trust_score].
    apply (Hc current_user u0 Hu).
  - rewrite lookup_insert_ne by congruence. apply Hc.
Qed.

End WithDigest.

(** ** The password meter *)

Lemma existsb_app_le {A} (p : A -> bool) (l s : list A) :
  Z.b2z (existsb p l) <= Z.b2z (existsb p (l ++ s)).
Proof. rewrite existsb_app. destruct (existsb p l), (existsb p s); cbn; lia. Qed.

Lemma class_count_range (password : str) : 0 <= class_count password <= 4.
Proof.
  unfold class_count.
  destruct (existsb is_upper _), (existsb is_lower _), (existsb is_digit _),
    (existsb is_special _); cbn; lia.
Qed.

Lemma class_count_app (password s : str) :
  class_count password <= class_count (password ++ s).
Proof.
  unfold class_count.
  pose proof (existsb_app_le is_upper password s).
  pose proof (existsb_app_le is_lower password s).
  pose proof (existsb_app_le is_digit password s).
  pose proof (existsb_app_le is_special password s).
  lia.
Qed.

Ltac split_tests :=
  repeat match goal with
    | |- context [Z.ltb ?a ?b] => destruct (Z.ltb_spec a b)
    | |- context [Z.leb ?a ?b] => destruct (Z.leb_spec a b)
    | |- context [Z.eqb ?a ?b] => destruct (Z.eqb_spec a b)
    end.

End AccountFacts.

Module AccountExtras.
Import Re TrustBridge Spec Samples Pages MoreSamples ScoreFacts LedgerFacts
  AccountFacts.

(** X9. Whatever the sequence of sign-ups, saved transactions and profile
    changes run from the empty stores, and whether or not some of them
    raise, every user's cached score is in the end the score recomputed
    from that user's ledger. *)
Theorem cache_consistent_always (digest : str -> str) (os : list operation) :
  cache_consistent (run_operations digest os (mk_session_state ∅ ∅)).
Proof.
  assert (H0 : cache_consistent (mk_session_state ∅ ∅)).
  { intros e u. cbn [users_db]. rewrite lookup_empty. discriminate. }
  revert H0. generalize (mk_session_state ∅ ∅).
  unfold run_operations.
  induction os as [|o os IH]; intros st Hc; [exact Hc|].
  cbn [fold_left]. apply IH.
  destruct o as [email name password plan now|email t|user new_name];
    cbn [apply_operation].
  - now apply consistent_save_user.
  - now apply consistent_save_transaction.
  - now apply consistent_save_changes.
Qed.

(** X10. After [save_user] the user signs in with the password, has the
    score 300 and an empty ledger, also when the email was registered
    before and had transactions; the other users keep their record and
    ledger. *)
Theorem save_user_starts_afresh (digest : str -> str)
    (email name password plan now other : str) (st : session_state) :
  other <> email ->
  let st' := snd (save_user digest email name password plan now st) in
  verify_user digest st' email password = true /\
  cached_score st' email = Some 300 /\
  get_user_transactions st' email = [] /\
  users_db st' !! other = users_db st !! other /\
  get_user_transactions st' other = get_user_transactions st other.
Proof.
  intros Hne st'. subst st'. rewrite save_user_state.
  unfold verify_user, cached_score, get_user_transactions.
  cbn [snd users_db transactions_db].
  rewrite !lookup_insert_eq, !lookup_insert_ne by congruence.
  cbn [TrustBridge.password]. unfold PyStr.eqb.
  rewrite bool_decide_eq_true_2 by reflexivity. repeat split.
Qed.

Lemma save_user_starts_afresh_witness :
  let st' := snd (save_user toy_digest alice (py "Alice") (py "correct horse")
                            (py "free") (py "2024-02-01T10:00:00")
                            after_rent) in
  verify_user toy_digest st' alice (py "correct horse") = true /\
  cached_score st' alice = Some 300 /\
  get_user_transactions st' alice = [] /\
  users_db st' !! bob = users_db after_rent !! bob /\
  get_user_transactions st' bob = get_user_transactions after_rent bob.
Proof.
  apply (save_user_starts_afresh toy_digest alice (py "Alice")
           (py "correct horse") (py "free") (py "2024-02-01T10:00:00") bob
           after_rent).
  vm_compute. discriminate.
Defined.

(** X11. When "Create Account" answers that the account was created, the
    fields were filled, the terms agreed, the email was free and the password
    had 8 characters or more; and signing in with the same email and password
    then succeeds and makes that email the current user. *)
Theorem sign_up_then_sign_in (digest : str -> str)
    (name email password plan now : str) (agree : bool) (a : app_state) :
  fst (create_account digest name email password plan agree now a)
  = py "✓ Account created! Please sign in." ->
  let a' := snd (create_account digest name email password plan agree now a) in
  (name <> [] /\ email <> [] /\ password <> [] /\ agree = true
   /\ users_db (session a) !! email = None
   /\ (8 <= length password)%nat) /\
  sign_in digest email password a'
  = (py "✓ Logged in successfully!",
     mk_app_state (session a') true (Some email) (page a')).
Proof.
  unfold create_account. cbn [forallb].
  destruct name as [|n0 name]; [vm_compute; discriminate|].
  destruct email as [|e0 email]; [vm_compute; discriminate|].
  destruct password as [|p0 password]; [vm_compute; discriminate|].
  cbn [nonempty andb negb].
  destruct agree; cbn [negb]; [|vm_compute; discriminate].
  case_bool_decide as Hreg; [vm_compute; discriminate|].
  destruct (Nat.ltb_spec (length (p0 :: password)) 8) as [Hlt|Hge];
    [vm_compute; discriminate|].
  intros _. cbn [snd session page].
  split.
  - repeat split; try discriminate; [|exact Hge].
    destruct (users_db (session a) !! (e0 :: email)) eqn:E; [|reflexivity].
    exfalso. apply Hreg. eauto.
  - unfold sign_in. cbn [session]. rewrite save_user_state.
    unfold verify_user. cbn [snd users_db]. rewrite lookup_insert_eq.
    cbn [TrustBridge.password]. unfold PyStr.eqb.
    rewrite bool_decide_eq_true_2 by reflexivity. reflexivity.
Qed.

Lemma sign_up_then_sign_in_witness :
  let a' := snd (create_account toy_digest (py "Bob") bob (py "s3cret-pass")
                   (py "Free (Basic features)") true
                   (py "2024-02-01T10:00:00") initial) in
  sign_in toy_digest bob (py "s3cret-pass") a'
  = (py "✓ Logged in successfully!",
     mk_app_state (session a') true (Some bob) (page a')).
Proof.
  apply (sign_up_then_sign_in toy_digest (py "Bob") bob (py "s3cret-pass")
           (py "Free (Basic features)") (py "2024-02-01T10:00:00") true
           initial).
  vm_compute. reflexivity.
Defined.

(** X12. "Create Account" never touches an email that is registered
    already: the stores are left as they were (where [save_user] itself
    would have emptied the ledger). *)
Theorem create_account_keeps_existing (digest : str -> str)
    (name email password plan now : str) (agree : bool) (a : app_state) :
  is_Some (users_db (session a) !! email) ->
  snd (create_account digest name email password plan agree now a) = a.
Proof.
  intros Hreg. unfold create_account.
  destruct (negb (forallb nonempty _)); [reflexivity|].
  destruct (negb agree); [reflexivity|].
  rewrite bool_decide_eq_true_2 by exact Hreg. reflexivity.
Qed.

Lemma create_account_keeps_existing_witness :
  snd (create_account toy_digest (py "Alice") alice (py "another-pass")
         (py "Free (Basic features)") true (py "2024-02-01T10:00:00")
         (mk_app_state after_rent false None (py "Dashboard")))
  = mk_app_state after_rent false None (py "Dashboard").
Proof.
  apply (create_account_keeps_existing toy_digest (py "Alice") alice
           (py "another-pass") (py "Free (Basic features)")
           (py "2024-02-01T10:00:00") true
           (mk_app_state after_rent false None (py "Dashboard"))).
  vm_compute. eauto.
Defined.

(** X13. The value of the password meter never goes down when characters
    are appended to the password. *)
Theorem strength_grows_with_suffix (password s : str) :
  strength_value password <= strength_value (password ++ s).
Proof.
  unfold strength_value, check_password_strength.
  pose proof (class_count_range password).
  pose proof (class_count_range (password ++ s)).
  pose proof (class_count_app password s).
  rewrite length_app, Nat2Z.inj_add.
  set (n := Z.of_nat (length password)).
  set (k := Z.of_nat (length s)).
  assert (0 <= k) by (subst k; lia).
  generalize dependent (class_count (password ++ s)).
  generalize dependent (class_count password). intros c Hc c' Hc' Hcc.
  split_tests; cbn [andb snd]; lia.
Qed.

(** X14. The meter says "Very Strong" (100) exactly for the passwords of
    12 characters or more that have an upper-case letter, a lower-case
    letter, a digit and a special character. *)
Theorem very_strong_iff (password : str) :
  check_password_strength password = (py "Very Strong", py "🟢", 100)
  <->
  (12 <= length password)%nat /\
  existsb is_upper password = true /\ existsb is_lower password = true /\
  existsb is_digit password = true /\ existsb is_special password = true.
Proof.
  unfold check_password_strength, class_count.
  set (n := Z.of_nat (length password)).
  assert (Hn : n = Z.of_nat (length password)) by reflexivity.
  clearbody n.
  destruct (existsb is_upper password), (existsb is_lower password),
    (existsb is_digit password), (existsb is_special password);
    cbn [Z.b2z Z.add];
    split_tests; cbn [andb];
    (split; [intros E; try (vm_compute in E; discriminate);
             repeat split; lia
            |intros (Ha & Hb & Hc & Hd & He);
             try discriminate; try lia; try reflexivity]).
Qed.

End AccountExtras.

(* ===================================================================== *)
(** * More on the transaction list *)
(* ===================================================================== *)

Module QueryFacts.
Import Re TrustBridge Spec Samples Pages MoreSamples.

(** ** The order of floats *)

Lemma compare_swap (a b : Float64.t) :
  SFcompare b a = option_map CompOpp (SFcompare a b).
Proof.
  destruct a as [sa|sa| |sa ma ea], b as [sb|sb| |sb mb eb];
    try reflexivity; try (destruct sa; reflexivity);
    try (destruct sb; reflexivity);
    try (destruct sa, sb; reflexivity).
  cbn [SFcompare option_map]. f_equal.
  rewrite (Z.compare_antisym ea eb), (ZC4 mb ma).
  destruct sa, sb; try reflexivity;
    destruct (Z.compare ea eb); cbn [CompOpp]; try reflexivity;
    destruct (Pos.compare_cont Eq ma mb); reflexivity.
Qed.

Lemma ltb_asym (a b : Float64.t) :
  Float64.ltb a b = true -> Float64.ltb b a = false.
Proof.
  unfold Float64.ltb, SFltb. rewrite (compare_swap a b).
  destruct (SFcompare a b) as [[| |]|]; cbn; congruence.
Qed.

Lemma ltb_irrefl (a : Float64.t) : Float64.ltb a a = false.
Proof.
  destruct (Float64.ltb a a) eqn:E; [|reflexivity].
  now rewrite (ltb_asym a a E) in E.
Qed.

(** ** Chains *)

Lemma chain_snoc {A} (R : A -> A -> Prop) (l : list A) (y x : A) :
  chain R (l ++ [y]) -> R y x -> chain R (l ++ [y; x]).
Proof.
  intros Hc Hr. induction l as [|c l IH].
  - cbn. auto.
  - cbn [app chain] in *. destruct Hc as [Hh Hc]. split; [|now apply IH].
    destruct l; exact Hh.
Qed.

Lemma chain_rev {A} (R : A -> A -> Prop) (l : list A) :
  chain R l -> chain (fun x y => R y x) (rev l).
Proof.
  induction l as [|a l IH]; [intros _; exact I|].
  intros [Hh Hc]. specialize (IH Hc). destruct l as [|b l].
  - cbn. auto.
  - cbn [rev] in *. rewrite <- app_assoc. cbn [app].
    now apply chain_snoc.
Qed.

(** ** The sort *)

Lemma insert_head (x : transaction) (l : list transaction) :
  exists z l', insert_by_amount x l = z :: l' /\
    (z = x \/ exists l0, l = z :: l0 /\ Float64.ltb (amount z) (amount x) = true).
Proof.
  destruct l as [|y l]; cbn [insert_by_amount]; [eauto|].
  destruct (Float64.ltb (amount y) (amount x)) eqn:E; eauto 8.
Qed.

Lemma insert_ascending (x : transaction) (l : list transaction) :
  ascending l -> ascending (insert_by_amount x l).
Proof.
  unfold ascending. induction l as [|y l IH]; intros Hc.
  - cbn. auto.
  - cbn [insert_by_amount].
    destruct (Float64.ltb (amount y) (amount x)) eqn:E.
    + destruct Hc as [Hh Hc]. specialize (IH Hc).
      cbn [chain]. split; [|exact IH].
      destruct (insert_head x l) as (z & l' & -> & [->|(l0 & -> & _)]).
      * now apply ltb_asym.
      * exact Hh.
    + cbn [chain]. split; [exact E|exact Hc].
Qed.

Lemma sort_ascending (l : list transaction) : ascending (sort_by_amount l).
Proof.
  induction l as [|x l IH]; [exact I|].
  cbn [sort_by_amount fold_right]. now apply insert_ascending.
Qed.

Lemma insert_perm (x : transaction) (l : list transaction) :
  insert_by_amount x l ≡ₚ x :: l.
Proof.
  induction l as [|y l IH]; [reflexivity|].
  cbn [insert_by_amount]. destruct (Float64.ltb _ _); [|reflexivity].
  rewrite IH. apply perm_swap.
Qed.

Lemma sort_perm (l : list transaction) : sort_by_amount l ≡ₚ l.
Proof.
  induction l as [|x l IH]; [reflexivity|].
  cbn [sort_by_amount fold_right]. rewrite insert_perm.
  now apply perm_skip.
Qed.

Lemma sorted_perm (l : list transaction) (reverse : bool) :
  sorted l reverse ≡ₚ l.
Proof.
  unfold sorted. destruct reverse; [|apply sort_perm].
  rewrite <- Permutation_rev, sort_perm. symmetry. apply Permutation_rev.
Qed.

Lemma insert_stable (a : Float64.t) (x : transaction) (l : list transaction) :
  List.filter (has_amount a) (insert_by_amount x l)
  = List.filter (has_amount a) (x :: l).
Proof.
  induction l as [|y l IH]; [reflexivity|].
  cbn [insert_by_amount].
  destruct (Float64.ltb (amount y) (amount x)) eqn:E; [|reflexivity].
  cbn [List.filter] in *. rewrite IH.
  destruct (has_amount a x) eqn:Hx, (has_amount a y) eqn:Hy; try reflexivity.
  exfalso. unfold has_amount in Hx, Hy.
  apply bool_decide_eq_true in Hx, Hy. rewrite Hx, Hy, ltb_irrefl in E.
  discriminate.
Qed.

Lemma sort_stable (a : Float64.t) (l : list transaction) :
  List.filter (has_amount a) (sort_by_amount l) = List.filter (has_amount a) l.
Proof.
  induction l as [|x l IH]; [reflexivity|].
  cbn [sort_by_amount fold_right]. rewrite insert_stable.
  cbn [List.filter]. fold (sort_by_amount l). now rewrite IH.
Qed.

Lemma sorted_stable (a : Float64.t) (l : list transaction) (reverse : bool) :
  List.filter (has_amount a) (sorted l reverse) = List.filter (has_amount a) l.
Proof.
  unfold sorted. destruct reverse; [|apply sort_stable].
  now rewrite filter_rev, sort_stable, filter_rev, rev_involutive.
Qed.

Lemma sorted_descending (l : list transaction) : descending (sorted l true).
Proof. unfold sorted, descending. apply (chain_rev _ _ (sort_ascending _)). Qed.

(** ** Without NaN the order is total *)

Lemma not_lt_le (a b : Float64.t) :
  Float64.is_nan a = false -> Float64.is_nan b = false ->
  Float64.ltb a b = false -> Float64.leb b a = true.
Proof.
  intros Ha Hb. unfold Float64.ltb, Float64.leb, SFltb, SFleb.
  rewrite (compare_swap a b).
  assert (Hc : exists c, SFcompare a b = Some c).
  { destruct a as [sa|sa| |sa ma ea], b as [sb|sb| |sb mb eb];
      try discriminate; cbn [SFcompare]; eauto. }
  destruct Hc as [c ->]. destruct c; cbn; congruence.
Qed.

Lemma chain_impl_on {A} (P : A -> Prop) (R R' : A -> A -> Prop) (l : list A) :
  (forall x y, P x -> P y -> R x y -> R' x y) ->
  Forall P l -> chain R l -> chain R' l.
Proof.
  intros HR. induction l as [|x l IH]; [intros _ _; exact I|].
  intros HP Hc. inversion HP as [|? ? Hx HP']; subst.
  cbn [chain] in *. destruct Hc as [Hh Hc]. split; [|now apply IH].
  destruct l as [|y l]; [exact I|].
  inversion HP' as [|? ? Hy _]; subst. now apply HR.
Qed.

Lemma no_nan_perm (l l' : list transaction) :
  l ≡ₚ l' -> no_nan l' = true -> no_nan l = true.
Proof.
  unfold no_nan. intros Hp H. apply forallb_forall. intros t Ht.
  apply (proj1 (forallb_forall _ _) H), (Permutation_in _ Hp Ht).
Qed.

Lemma no_nan_filter (f : transaction -> bool) (l : list transaction) :
  no_nan l = true -> no_nan (List.filter f l) = true.
Proof.
  unfold no_nan. intros H. apply forallb_forall. intros t Ht.
  apply filter_In in Ht as [Ht _].
  exact (proj1 (forallb_forall _ _) H t Ht).
Qed.

Lemma no_nan_Forall (l : list transaction) :
  no_nan l = true -> Forall (fun t => Float64.is_nan (amount t) = false) l.
Proof.
  unfold no_nan. intros H. apply Forall_forall. intros t Ht.
  apply list_elem_of_In in Ht.
  apply (proj1 (forallb_forall _ _) H) in Ht. now apply negb_true_iff in Ht.
Qed.

Lemma sorted_non_increasing (l : list transaction) :
  no_nan l = true -> non_increasing (sorted l true).
Proof.
  intros Hn. unfold non_increasing.
  apply (chain_impl_on (fun t => Float64.is_nan (amount t) = false)
           (fun x y => Float64.ltb (amount x) (amount y) = false)).
  - intros x y Hx Hy. now apply not_lt_le.
  - apply no_nan_Forall, (no_nan_perm _ l); [apply sorted_perm|exact Hn].
  - apply sorted_descending.
Qed.

(** ** The filters *)

Lemma filter_filter {A} (f g : A -> bool) (l : list A) :
  List.filter g (List.filter f l) = List.filter (fun x => f x && g x) l.
Proof.
  induction l as [|x l IH]; [reflexivity|].
  cbn [List.filter]. destruct (f x); cbn [List.filter andb]; now rewrite IH.
Qed.

(** The list before the sort. *)
Lemma transactions_page_unfold (l : list transaction)
    (filter_type filter_verified sort_by : str) :
  transactions_page l filter_type filter_verified sort_by
  = let filtered := List.filter (passes filter_type filter_verified) l in
    if contains (py "Amount") sort_by
    then sorted filtered (contains (py "High") sort_by)
    else filtered.
Proof.
  assert (Hf : (if negb (PyStr.eqb filter_type (py "All"))
                then List.filter (fun t => PyStr.eqb (type t) filter_type) l
                else l)
               = List.filter (fun t => PyStr.eqb filter_type (py "All")
                                       || PyStr.eqb (type t) filter_type) l).
  { destruct (PyStr.eqb filter_type (py "All")); cbn [negb orb];
      [now rewrite filter_true|reflexivity]. }
  assert (Hp : (let filtered :=
                  if negb (PyStr.eqb filter_type (py "All"))
                  then List.filter (fun t => PyStr.eqb (type t) filter_type) l
                  else l in
                if PyStr.eqb filter_verified (py "Verified Only")
                then List.filter verified filtered
                else if PyStr.eqb filter_verified (py "Unverified Only")
                then List.filter (fun t => negb (verified t)) filtered
                else filtered)
               = List.filter (passes filter_type filter_verified) l).
  { cbv zeta. rewrite Hf. unfold passes.
    destruct (PyStr.eqb filter_verified (py "Verified Only"));
      [apply filter_filter|].
    destruct (PyStr.eqb filter_verified (py "Unverified Only"));
      [apply filter_filter|].
    apply filter_ext. intros t. now rewrite andb_true_r. }
  destruct l as [|t l].
  - clear Hf Hp. cbn [transactions_page List.filter].
    destruct (contains (py "Amount") sort_by);
      [destruct (contains (py "High") sort_by)|]; reflexivity.
  - unfold transactions_page. cbv zeta in *. now rewrite Hp.
Qed.

End QueryFacts.

Module QueryExtras.
Import Re TrustBridge Spec Samples Pages MoreSamples QueryFacts.

(** X15. Whatever the three choices, the list [transactions_page] shows
    is a rearrangement of the transactions of the ledger that pass the two
    filters: nothing is dropped, added or shown twice; and with the two
    date orders it is that list in ledger order. *)
Theorem transactions_page_shows_the_filtered (l : list transaction)
    (filter_type filter_verified sort_by : str) :
  transactions_page l filter_type filter_verified sort_by
  ≡ₚ List.filter (passes filter_type filter_verified) l /\
  transactions_page l filter_type filter_verified (py "Date (Newest)")
  = List.filter (passes filter_type filter_verified) l /\
  transactions_page l filter_type filter_verified (py "Date (Oldest)")
  = List.filter (passes filter_type filter_verified) l.
Proof.
  rewrite !transactions_page_unfold. cbv zeta. split.
  - destruct (contains (py "Amount") sort_by); [apply sorted_perm|reflexivity].
  - split; reflexivity.
Qed.

(** X16. On a ledger without NaN amounts, with "Amount (High-Low)" every
    transaction shown has an amount at least that of the next one (none is
    followed by a larger one), and the transactions of one and the same
    amount come in their ledger order. *)
Theorem high_low_is_descending_and_stable (l : list transaction)
    (filter_type filter_verified : str) :
  no_nan l = true ->
  let shown :=
    transactions_page l filter_type filter_verified (py "Amount (High-Low)") in
  descending shown /\
  non_increasing shown /\
  forall a : Float64.t,
    List.filter (fun t => bool_decide (amount t = a)) shown
    = List.filter (fun t => bool_decide (amount t = a))
                  (List.filter (passes filter_type filter_verified) l).
Proof.
  intros Hn shown. subst shown. rewrite transactions_page_unfold. cbv zeta.
  change (contains (py "Amount") (py "Amount (High-Low)")) with true.
  change (contains (py "High") (py "Amount (High-Low)")) with true.
  cbv iota. split; [apply sorted_descending|].
  split; [now apply sorted_non_increasing, no_nan_filter|].
  intros a. apply (sorted_stable a).
Qed.

(** Of the two expenses of 10.00 the one recorded first on the ledger is
    shown first. *)
Lemma high_low_is_descending_and_stable_witness :
  no_nan week = true /\
  transactions_page week (py "All") (py "All") (py "Amount (High-Low)")
  = [large_early; grocery 8; grocery 1] /\
  (let shown :=
     transactions_page week (py "All") (py "All") (py "Amount (High-Low)") in
   descending shown /\
   non_increasing shown /\
   forall a : Float64.t,
     List.filter (fun t => bool_decide (amount t = a)) shown
     = List.filter (fun t => bool_decide (amount t = a))
                   (List.filter (passes (py "All") (py "All")) week)).
Proof.
  split; [reflexivity|]. split; [vm_compute; reflexivity|].
  apply (high_low_is_descending_and_stable week (py "All") (py "All")).
  reflexivity.
Defined.

End QueryExtras.

(* ===================================================================== *)
(** * The transaction form, the calendar date and more on the extractor *)
(* ===================================================================== *)

Module FormFacts.
Import Re TrustBridge Spec Samples Pages MoreSamples ScoreFacts ExtractFacts.


(** ** The receipt block *)


Lemma process_receipt_raises (f : form) (file : upload) (st : session_state) :
  uploaded_file f = Some file ->
  is_prefix (py "image") (mime file) = true ->
  decodes file = false ->
  process_receipt (uploaded_file f) st = (Raised UnidentifiedImageError, st).
Proof.
  intros -> Hm Hd. cbn [process_receipt]. unfold bind, image_open, raise.
  now rewrite Hm, Hd.
Qed.

(** ** No label, no labelled total *)

Lemma labelled_total_needs_label (s : str) :
  Forall no_label_start s -> search labelled_total s = None.
Proof.
  assert (Hh : forall s, match s with [] => True | c :: _ => no_label_start c end ->
                         match_here labelled_total s = None).
  { intros [|c s'] Hc; [reflexivity|].
    destruct Hc as (H1 & H2 & H3 & H4).
    unfold match_here, labelled_total, label. cbn [run is_prefix].
    change (py "TOTAL") with (84 :: py "OTAL")%N.
    change (py "Total") with (84 :: py "otal")%N.
    change (py "total") with (116 :: py "otal")%N.
    change (py "AMOUNT") with (65 :: py "MOUNT")%N.
    change (py "Amount") with (65 :: py "mount")%N.
    change (py "amount") with (97 :: py "mount")%N.
    cbn [is_prefix].
    rewrite (proj2 (N.eqb_neq 84 c)), (proj2 (N.eqb_neq 116 c)),
      (proj2 (N.eqb_neq 65 c)), (proj2 (N.eqb_neq 97 c)) by congruence.
    reflexivity. }
  induction 1 as [|c s Hc _ IH].
  - cbn [search]. now rewrite Hh.
  - cbn [search]. rewrite (Hh (c :: s)) by exact Hc. exact IH.
Qed.

Lemma render_digits_no_label (ip fp : list N) :
  Forall (fun d => (d < 10)%N) ip -> Forall (fun d => (d < 10)%N) fp ->
  Forall no_label_start (render_digits ip fp).
Proof.
  intros Hip Hfp. unfold render_digits, digit_chars. apply Forall_app. split.
  - apply Forall_map. eapply Forall_impl; [exact Hip|]. intros d Hd.
    unfold compose, no_label_start. cbv beta in *. lia.
  - destruct fp as [|f fp]; [constructor|].
    constructor; [unfold no_label_start; lia|].
    apply Forall_map. eapply Forall_impl; [exact Hfp|]. intros d Hd.
    unfold compose, no_label_start. cbv beta in *. lia.
Qed.

Lemma currency_sign_cases (c : N) :
  currency_sign c = true -> c = 8358%N \/ c = 36%N \/ c = 163%N \/ c = 8364%N.
Proof.
  unfold currency_sign, one_of. intros H. apply bool_decide_eq_true in H.
  change (py "₦$£€") with [8358; 36; 163; 8364]%N in H.
  repeat (apply elem_of_cons in H as [H|H]; [auto|]).
  now apply elem_of_nil in H.
Qed.

Lemma run_Class_take {A} p c s g (k : str -> option str -> option A) :
  p c = true -> run (Class p) (c :: s) g k = k s g.
Proof. intros Hp. cbn [run]. now rewrite Hp. Qed.

Lemma extract_sign_literal (sign : N) (ip fp : list N) :
  currency_sign sign = true ->
  Forall (fun d => (d < 10)%N) ip -> Forall (fun d => (d < 10)%N) fp ->
  ip <> [] -> (2 <= length ip + length fp)%nat ->
  extract_amount_from_text (sign :: render_digits ip fp)
  = Returned (Some (Float64.of_decimal (Float64.number (ip ++ fp))
                                       (length fp))).
Proof.
  intros Hs Hip Hfp Hne Hlen.
  unfold extract_amount_from_text, patterns. cbn [extract_with].
  rewrite labelled_total_needs_label.
  2:{ constructor; [|now apply render_digits_no_label].
      unfold no_label_start.
      destruct (currency_sign_cases sign Hs) as [-> | [-> | [-> | ->]]];
        repeat split; discriminate. }
  assert (Hm : search sign_prefixed (sign :: render_digits ip fp)
               = Some (Some (render_digits ip fp))).
  { apply search_here. unfold match_here, sign_prefixed.
    rewrite run_Seq, (run_Class_take _ _ _ _ _ Hs), run_Seq, run_Star.
    assert (Hg : run amount_group (render_digits ip fp) None
                     (fun _ g' => Some g') = Some (Some (render_digits ip fp)))
      by now apply group_takes_literal.
    destruct ip as [|d ip]; [congruence|].
    inversion Hip as [|? ? Hd _]; subst.
    revert Hg. unfold render_digits. cbn [digit_chars map app].
    intros Hg. rewrite star_stop by now apply ascii_digit_not_space.
    exact Hg. }
  rewrite Hm, (replace_comma_render ip fp Hip Hfp).
  now rewrite (float_render ip fp Hip Hfp Hne).
Qed.

(** ** A match is a piece of the text, and has a digit *)

Lemma search_sound_infix (r : regex) (s : str) m :
  search r s = Some m ->
  exists pre w post, s = pre ++ w ++ post /\ matches r w None m.
Proof.
  induction s as [|c s IH]; cbn [search]; intros H.
  - destruct (match_here r []) as [y|] eqn:Hm; [|discriminate].
    injection H as ->. apply run_sound in Hm as (w & s' & g' & E & Hm & Hk).
    injection Hk as ->. exists [], w, s'. now split.
  - destruct (match_here r (c :: s)) as [y|] eqn:Hm.
    + injection H as ->. apply run_sound in Hm as (w & s' & g' & E & Hm & Hk).
      injection Hk as ->. exists [], w, s'. now split.
    + destruct (IH H) as (pre & w & post & -> & Hw).
      exists (c :: pre), w, post. now split.
Qed.

Lemma must_matches (P : N -> Prop) (r : regex) w g g' :
  matches r w g g' -> must P r -> Exists P w.
Proof.
  induction 1 as [l g|p c g Hc|r1 r2 w1 w2 g g1 g2 _ IH1 _ IH2
                  |r1 r2 w g g' _ IH|r1 r2 w g g' _ IH|p g|p c g Hc
                  |p w g Hw|p c w g Hw|r w g g' _ IH]; cbn [must]; intros Hm;
    try (now destruct Hm).
  - exact Hm.
  - apply Exists_cons_hd. now apply Hm.
  - apply Exists_app. destruct Hm as [Hm|Hm]; [left|right]; auto.
  - apply IH, Hm.
  - apply IH, Hm.
  - inversion Hw; subst. apply Exists_cons_hd. now apply Hm.
  - now apply IH.
Qed.

Lemma patterns_need_digit :
  Forall (must (fun c => is_digit c = true)) patterns.
Proof.
  unfold patterns, labelled_total, sign_prefixed, code_suffixed, amount_group.
  repeat apply Forall_cons_2; [..|apply Forall_nil_2]; cbn [must]; tauto.
Qed.

Lemma extract_needs_digit (text : str) :
  Forall (fun c => is_digit c = false) text ->
  extract_amount_from_text text = Returned None.
Proof.
  intros Hno. apply extract_with_no_match. intros r Hr.
  destruct (search r text) as [m|] eqn:Hs; [exfalso|reflexivity].
  apply search_sound_infix in Hs as (pre & w & post & -> & Hw).
  pose proof patterns_need_digit as Hp.
  rewrite Forall_forall in Hp. specialize (Hp r Hr).
  apply (must_matches _ _ _ _ _ Hw) in Hp.
  apply Exists_exists in Hp as (c & Hc & Hd).
  rewrite Forall_forall in Hno.
  assert (Hin : c ∈ pre ++ w ++ post)
    by (rewrite !elem_of_app; auto).
  rewrite (Hno c Hin) in Hd. discriminate.
Qed.

(** ** The calendar date *)

Lemma digits4 (y : N) :
  (y <= 9999)%N ->
  y = (1000 * ((y / 1000) mod 10) + 100 * ((y / 100) mod 10)
       + 10 * ((y / 10) mod 10) + y mod 10)%N.
Proof.
  intros Hy.
  replace (y / 1000)%N with (y / 10 / 10 / 10)%N
    by (rewrite !N.Div0.div_div; reflexivity).
  replace (y / 100)%N with (y / 10 / 10)%N
    by (rewrite !N.Div0.div_div; reflexivity).
  pose proof (N.div_mod y 10 ltac:(lia)).
  pose proof (N.div_mod (y / 10) 10 ltac:(lia)).
  pose proof (N.div_mod (y / 10 / 10) 10 ltac:(lia)).
  pose proof (N.div_mod (y / 10 / 10 / 10) 10 ltac:(lia)).
  assert (y / 10 / 10 / 10 / 10 = 0)%N.
  { rewrite !N.Div0.div_div. apply N.div_small. lia. }
  lia.
Qed.

Lemma digit_zero (y k : N) : (y < k)%N -> ((y / k) mod 10 = 0)%N.
Proof. intros H. rewrite N.div_small by exact H. reflexivity. Qed.

Lemma pad2_inj (n m : N) :
  (n < 100)%N -> (m < 100)%N -> pad2 n = pad2 m -> n = m.
Proof.
  unfold pad2, digit_char. intros Hn Hm E. injection E. intros E0 E1.
  pose proof (digits4 n ltac:(lia)) as Dn.
  pose proof (digits4 m ltac:(lia)) as Dm.
  rewrite (digit_zero n 1000), (digit_zero n 100) in Dn by lia.
  rewrite (digit_zero m 1000), (digit_zero m 100) in Dm by lia.
  lia.
Qed.

Lemma year_digits_eq_inj (y1 y2 : N) :
  (y1 <= 9999)%N -> (y2 <= 9999)%N ->
  year_digits y1 = year_digits y2 -> y1 = y2.
Proof.
  unfold year_digits, digit_char. intros V1 V2.
  pose proof (digits4 y1 V1) as D1. pose proof (digits4 y2 V2) as D2.
  destruct (N.ltb_spec y1 10), (N.ltb_spec y1 100), (N.ltb_spec y1 1000);
    try lia;
    destruct (N.ltb_spec y2 10), (N.ltb_spec y2 100), (N.ltb_spec y2 1000);
    try lia; cbn [app]; intros E;
    first [ discriminate E | injection E; clear E; intros ];
    repeat match goal with
      | H : (?y < ?k)%N |- _ =>
          match k with
          | 10%N => rewrite (digit_zero y 10 H) in *
          | 100%N => rewrite (digit_zero y 100 H) in *
          | 1000%N => rewrite (digit_zero y 1000 H) in *
          end; revert H
      end; intros; lia.
Qed.

Lemma digit_char_no_dash (n : N) : digit_char n <> 45%N.
Proof. unfold digit_char. generalize (n mod 10)%N. intros. lia. Qed.

Lemma year_digits_no_dash (y : N) :
  Forall (fun c => c <> 45%N) (year_digits y).
Proof.
  unfold year_digits.
  destruct (y <? 10)%N, (y <? 100)%N, (y <? 1000)%N; cbn [app];
    repeat (apply Forall_cons_2; [apply digit_char_no_dash|]);
    apply Forall_nil_2.
Qed.

Lemma split_at_first {A} (x : A) (l1 l2 r1 r2 : list A) :
  Forall (fun c => c <> x) l1 -> Forall (fun c => c <> x) l2 ->
  l1 ++ x :: r1 = l2 ++ x :: r2 -> l1 = l2 /\ r1 = r2.
Proof.
  intros H1. revert l2. induction H1 as [|a l1 Ha _ IH]; intros l2 H2 E.
  - destruct H2 as [|b l2 Hb _]; cbn [app] in E.
    + injection E as ->. auto.
    + injection E as E1 _. congruence.
  - destruct H2 as [|b l2 Hb H2]; cbn [app] in E.
    + injection E as E1 _. congruence.
    + injection E as -> E. destruct (IH l2 H2 E) as [-> ->]. auto.
Qed.

Lemma year_digits_inj (y1 y2 : N) (r1 r2 : str) :
  (y1 <= 9999)%N -> (y2 <= 9999)%N ->
  year_digits y1 ++ 45%N :: r1 = year_digits y2 ++ 45%N :: r2 ->
  y1 = y2 /\ r1 = r2.
Proof.
  intros V1 V2 E.
  apply split_at_first in E as [E ->]; try apply year_digits_no_dash.
  split; [now apply year_digits_eq_inj|reflexivity].
Qed.

Lemma strftime_Ymd_inj (d1 d2 : datetime) :
  valid_date d1 -> valid_date d2 ->
  strftime_Ymd d1 = strftime_Ymd d2 ->
  year d1 = year d2 /\ month d1 = month d2 /\ day d1 = day d2.
Proof.
  unfold valid_date, strftime_Ymd.
  intros (Vy1 & Vm1 & Vd1) (Vy2 & Vm2 & Vd2) E.
  apply year_digits_inj in E as [Hy E]; [|lia|lia].
  split; [exact Hy|].
  unfold pad2 in E. cbn [app] in E. injection E. intros Ed0 Ed1 Em0 Em1.
  split; (apply pad2_inj; [lia|lia|unfold pad2; congruence]).
Qed.

End FormFacts.

Module FormExtras.
Import Re TrustBridge Spec Samples Pages MoreSamples ScoreFacts ExtractFacts
  FormFacts.



(** An upload of an image type that [Image.open] does not identify stops
    the script before the submit block: the exception is raised and the
    stores are as before, whatever was typed. *)
Theorem form_stops_on_a_broken_image (user : str) (f : form) (file : upload)
    (st : session_state) :
  uploaded_file f = Some file ->
  is_prefix (py "image") (mime file) = true ->
  decodes file = false ->
  submit_transaction user f st = (Raised UnidentifiedImageError, st).
Proof.
  intros Hf Hm Hd. unfold submit_transaction. unfold bind at 1.
  now rewrite (process_receipt_raises f file st Hf Hm Hd).
Qed.

Lemma form_stops_on_a_broken_image_witness :
  submit_transaction alice broken_form fresh
  = (Raised UnidentifiedImageError, fresh).
Proof.
  apply (form_stops_on_a_broken_image alice broken_form broken_photo fresh);
    reflexivity.
Defined.

(** With no receipt and no amount other than zero the form saves
    nothing: it returns its request for an amount and the stores are as
    before. *)
Theorem form_asks_for_an_amount (user : str) (f : form) (st : session_state) :
  truth (form_amount f) = false ->
  uploaded_file f = None ->
  submit_transaction user f st
  = (Returned (py "Please enter an amount or upload a receipt with a visible amount."),
     st).
Proof.
  intros Ht Hu. unfold submit_transaction, bind, ret. rewrite Hu, Ht.
  reflexivity.
Qed.

Lemma form_asks_for_an_amount_witness :
  submit_transaction alice empty_form fresh
  = (Returned (py "Please enter an amount or upload a receipt with a visible amount."),
     fresh).
Proof.
  apply (form_asks_for_an_amount alice empty_form fresh); reflexivity.
Defined.

(** X18. Two transactions dated by a [datetime] have the same date string,
    and so count as one active day, exactly when they are of the same
    year, month and day; the time of day plays no part. *)
Theorem date_str_same_day (t1 t2 : transaction) (d1 d2 : datetime) :
  date t1 = DateTime d1 -> date t2 = DateTime d2 ->
  valid_date d1 -> valid_date d2 ->
  (date_str t1 = date_str t2
   <-> year d1 = year d2 /\ month d1 = month d2 /\ day d1 = day d2).
Proof.
  intros E1 E2 V1 V2. unfold date_str. rewrite E1, E2. split.
  - now apply strftime_Ymd_inj.
  - intros (Hy & Hm & Hd). unfold strftime_Ymd. now rewrite Hy, Hm, Hd.
Qed.

Lemma date_str_same_day_witness :
  date_str salary = date_str evening_rent.
Proof.
  apply (date_str_same_day salary evening_rent
           (mk_datetime 2024 1 5 12 0 0 0) (mk_datetime 2024 1 5 20 30 0 0));
    try reflexivity; unfold valid_date; cbn; lia.
Defined.

(** X19. For every decimal amount rendered in fixed point with at least
    two digits, the extractor applied to one of the four currency signs
    followed by the rendering returns the float nearest to the amount: the
    labelled pattern finds nothing and the second pattern reads the
    literal. *)
Theorem sign_round_trip (sign : N) (a : decimal) :
  currency_sign sign = true ->
  (1 <= scale a)%nat \/ (10 <= units a)%N ->
  extract_amount_from_text (sign :: render a)
  = Returned (Some (nearest_float a)).
Proof.
  intros Hs Hd.
  destruct (render_is_literal a)
    as (ip & fp & -> & Hip & Hfp & Hne & Hnum & Hlen & Htot).
  rewrite (extract_sign_literal sign ip fp Hs Hip Hfp Hne).
  - unfold nearest_float. now rewrite Hnum, Hlen.
  - rewrite Htot. destruct Hd as [Hsc|Hu]; [lia|].
    pose proof (digits_of_two (units a) Hu). lia.
Qed.

Lemma sign_round_trip_witness :
  extract_amount_from_text (8358%N :: render (mk_decimal 8230 2))
  = Returned (Some (nearest_float (mk_decimal 8230 2))).
Proof.
  apply (sign_round_trip 8358 (mk_decimal 8230 2)).
  - reflexivity.
  - left. cbn [scale]. lia.
Defined.

(** X20. A text without a decimal digit has no amount: the extractor
    returns [None]. *)
Theorem no_digit_no_amount (text : str) :
  Forall (fun c => is_digit c = false) text ->
  extract_amount_from_text text = Returned None.
Proof. apply extract_needs_digit. Qed.

Lemma no_digit_no_amount_witness :
  extract_amount_from_text (py "TOTAL: twelve dollars") = Returned None.
Proof.
  apply (no_digit_no_amount (py "TOTAL: twelve dollars")).
  apply (bool_decide_unpack _). vm_compute. exact I.
Defined.

End FormExtras.
